(** * agol-validator: tag normalisation, tag reconciliation and the
      attribute checkers of [checks.py], with the check and fix phases of
      [validate.py].

    Python text is modelled as [string], a sequence of 8-bit characters of
    which the 7-bit (ASCII) ones carry Python's meaning: the word lists, the
    group prefix and the delete list of the tool are ASCII.  Characters above
    127 stand for caseless, non-blank symbols. *)

From Stdlib Require Import Ascii.
From stdpp Require Import base decidable option list sorting strings gmap.

(** ** Python [str] methods *)

Module Py.

Definition code (c : ascii) : nat := nat_of_ascii c.

(** [str.isspace] on one character: TAB..CR, FS..US and the blank. *)
Definition is_space (c : ascii) : bool :=
  let n := code c in
  ((9 <=? n) && (n <=? 13)) || ((28 <=? n) && (n <=? 32)).

Definition is_upper (c : ascii) : bool :=
  let n := code c in (65 <=? n) && (n <=? 90).

Definition is_lower (c : ascii) : bool :=
  let n := code c in (97 <=? n) && (n <=? 122).

(** A cased character is a letter. *)
Definition is_cased (c : ascii) : bool := is_upper c || is_lower c.

Definition lower_char (c : ascii) : ascii :=
  if is_upper c then ascii_of_nat (code c + 32) else c.

Definition upper_char (c : ascii) : ascii :=
  if is_lower c then ascii_of_nat (code c - 32) else c.

(** [s.lower()] *)
Fixpoint lower (s : string) : string :=
  match s with
  | EmptyString => EmptyString
  | String c s' => String (lower_char c) (lower s')
  end.

(** [s.upper()] *)
Fixpoint upper (s : string) : string :=
  match s with
  | EmptyString => EmptyString
  | String c s' => String (upper_char c) (upper s')
  end.

(** [s.title()]: a letter is upper-cased when the character before it is
    not a letter, and lower-cased otherwise. *)
Fixpoint title_go (previous_is_cased : bool) (s : string) : string :=
  match s with
  | EmptyString => EmptyString
  | String c s' =>
      String (if previous_is_cased then lower_char c else upper_char c)
             (title_go (is_cased c) s')
  end.

Definition title (s : string) : string := title_go false s.

(** [s.replace(c, '')] for a one-character pattern. *)
Fixpoint remove_char (x : ascii) (s : string) : string :=
  match s with
  | EmptyString => EmptyString
  | String c s' =>
      if Ascii.eqb c x then remove_char x s' else String c (remove_char x s')
  end.

Definition flush (cur : string) : list string :=
  match cur with EmptyString => [] | _ => [cur] end.

(** [s.split()]: the maximal runs of non-blank characters.  [cur] is the
    run being read. *)
Fixpoint split_go (cur : string) (s : string) : list string :=
  match s with
  | EmptyString => flush cur
  | String c s' =>
      if is_space c then flush cur ++ split_go EmptyString s'
      else split_go (cur +:+ String c EmptyString) s'
  end.

Definition split (s : string) : list string := split_go EmptyString s.

(** [sep.join(l)] *)
Fixpoint join (sep : string) (l : list string) : string :=
  match l with
  | [] => EmptyString
  | [x] => x
  | x :: l' => x +:+ sep +:+ join sep l'
  end.

Fixpoint lstrip (s : string) : string :=
  match s with
  | EmptyString => EmptyString
  | String c s' => if is_space c then lstrip s' else s
  end.

Fixpoint rstrip (s : string) : string :=
  match s with
  | EmptyString => EmptyString
  | String c s' =>
      match rstrip s' with
      | EmptyString => if is_space c then EmptyString else String c EmptyString
      | r => String c r
      end
  end.

(** [s.strip()] *)
Definition strip (s : string) : string := rstrip (lstrip s).

Fixpoint starts_with (p s : string) : bool :=
  match p, s with
  | EmptyString, _ => true
  | String a p', String b s' => Ascii.eqb a b && starts_with p' s'
  | String _ _, EmptyString => false
  end.

(** [sub in s] on strings. *)
Fixpoint contains (sub s : string) : bool :=
  starts_with sub s ||
  match s with
  | EmptyString => false
  | String _ s' => contains sub s'
  end.

(** [x in l] on a list of strings. *)
Definition mem (x : string) (l : list string) : bool := bool_decide (x ∈ l).

(** [s.split(sep)] for a non-empty [sep]: a left-to-right scan; [skip]
    counts the characters of a matched separator still to pass over, [cur]
    is the piece being read. *)
Fixpoint split_sep_go (sep : string) (skip : nat) (cur : string) (s : string)
  : list string :=
  match s with
  | EmptyString => [cur]
  | String c s' =>
      match skip with
      | S k => split_sep_go sep k cur s'
      | O =>
          if starts_with sep s
          then cur :: split_sep_go sep (String.length sep - 1) EmptyString s'
          else split_sep_go sep 0 (cur +:+ String c EmptyString) s'
      end
  end.

Definition split_sep (sep s : string) : list string :=
  split_sep_go sep 0 EmptyString s.

(** [l[-1]] on a list that [split] returned (never empty). *)
Definition last_piece (l : list string) : string := List.last l EmptyString.

(** [sorted(l)] on strings: ascending by code point. *)
Definition sorted (l : list string) : list string := merge_sort String.le l.

(** [l.remove(x)]: drops the first occurrence (the callers test membership
    first, so the [ValueError] of an absent [x] cannot arise). *)
Fixpoint remove_first (x : string) (l : list string) : list string :=
  match l with
  | [] => []
  | y :: l' => if decide (y = x) then l' else y :: remove_first x l'
  end.

End Py.

(** ** checks.py: [tag_case] *)

(** One round of the loop over [tag.split()]. *)
Definition tag_case_body (uppercased articles : list string)
    (new_words : list string) (word : string) : list string :=
  let cleaned_word := Py.remove_char "."%char word in
  if Py.mem (Py.lower cleaned_word) uppercased then
    new_words ++ [Py.upper cleaned_word]
  else if Py.mem (Py.lower cleaned_word) articles then
    new_words ++ [Py.lower cleaned_word]
  else
    new_words ++ [Py.title cleaned_word].

Definition tag_case (tag : string) (uppercased articles : list string) : string :=
  let new_words := fold_left (tag_case_body uppercased articles) (Py.split tag) [] in
  Py.join " " new_words.

(** The normalizer as the specification words it: each word of the tag,
    without its periods, upper-cased, lower-cased or title-cased by the two
    sets, the words joined by single blanks. *)
Definition normalize_word (uppercaseSet articleSet : list string) (word : string) : string :=
  let cleaned := Py.remove_char "."%char word in
  if Py.mem (Py.lower cleaned) uppercaseSet then Py.upper cleaned
  else if Py.mem (Py.lower cleaned) articleSet then Py.lower cleaned
  else Py.title cleaned.

Definition normalize (tag : string) (uppercaseSet articleSet : list string) : string :=
  Py.join " " (map (normalize_word uppercaseSet articleSet) (Py.split tag)).

(** [all_chars p s]: every character of [s] satisfies [p]. *)
Fixpoint all_chars (p : ascii → bool) (s : string) : bool :=
  match s with
  | EmptyString => true
  | String c s' => p c && all_chars p s'
  end.

Definition no_blank (s : string) : bool := all_chars (λ c, negb (Py.is_space c)) s.

Definition no_dot (s : string) : bool := all_chars (λ c, negb (Ascii.eqb c ".")) s.

(** A word made of periods only: nothing is left of it without them. *)
Definition only_dots (word : string) : bool :=
  bool_decide (Py.remove_char "."%char word = EmptyString).

(** A word as [split] returns it: not empty, no blank inside. *)
Definition word_ok (w : string) : Prop := w ≠ "" ∧ no_blank w = true.

(** Some word of the tag is made of periods only. *)
Definition has_dot_word (tag : string) : bool := existsb only_dots (Py.split tag).

(** ** validate.py: the word lists of the validator class *)

Definition uppercased_tags : list string :=
  ["2g"; "3g"; "4g"; "agrc"; "aog"; "at&t"; "blm"; "brat"; "caf"; "cdl";
   "daq"; "dfcm"; "dfirm"; "dwq"; "e911"; "ems"; "fae"; "fcc"; "fema";
   "gcdb"; "gis"; "gnis"; "hava"; "huc"; "lir"; "lrs"; "lte"; "luca";
   "mrrc"; "nca"; "ng911"; "nox"; "npsbn"; "ntia"; "nwi"; "plss"; "pm10";
   "psap"; "sbdc"; "sbi"; "sgid"; "sitla"; "sligp"; "trax"; "uca"; "udot";
   "ugs"; "uhp"; "uic"; "us"; "usdw"; "usfs"; "usfws"; "usps"; "ustc"; "ut";
   "uta"; "vcp"; "vista"; "voc"].

Definition articles : list string := ["a"; "the"; "of"; "is"; "in"].

Definition tags_to_delete : list string := [".sd"; "service definition"].

(** ** Python values and exceptions *)

Inductive exn := TypeError | KeyError | IndexError | ValueError | AttributeError.

(** The values the checkers store in their results. *)
Inductive pyval :=
  | PNone
  | PInt (z : Z)
  | PStr (s : string)
  | PList (l : list string).

(** What a checker returns: a dict literal (keys in the order written) or a
    list literal. *)
Inductive pyobj :=
  | ODict (kv : list (string * pyval))
  | OList (cells : list pyval).

Global Instance pyval_eq_dec : EqDecision pyval.
Proof. solve_decision. Defined.

Global Instance pyobj_eq_dec : EqDecision pyobj.
Proof. solve_decision. Defined.

Global Instance exn_eq_dec : EqDecision exn.
Proof. solve_decision. Defined.

(** [a == b]: values of different types are never equal. *)
Definition py_eq (a b : pyval) : bool :=
  match a, b with
  | PNone, PNone => true
  | PInt x, PInt y => bool_decide (x = y)
  | PStr x, PStr y => bool_decide (x = y)
  | PList x, PList y => bool_decide (x = y)
  | _, _ => false
  end.

(** Truth value of [if v:]. *)
Definition truthy (v : pyval) : bool :=
  match v with
  | PNone => false
  | PInt z => negb (bool_decide (z = 0%Z))
  | PStr s => negb (bool_decide (s = EmptyString))
  | PList l => negb (bool_decide (l = []))
  end.

(** [d[k]] on a dict result. *)
Fixpoint assoc (k : string) (kv : list (string * pyval)) : option pyval :=
  match kv with
  | [] => None
  | (k', v) :: kv' => if decide (k' = k) then Some v else assoc k kv'
  end.

Definition field (k : string) (o : pyobj) : option pyval :=
  match o with
  | ODict kv => assoc k kv
  | OList _ => None
  end.

Definition of_opt (o : option string) : pyval :=
  match o with Some s => PStr s | None => PNone end.

(** ** The remote item

    [shared_with]: [None] when reading [item.shared_with] raises; otherwise
    the groups, each with its title, [None] when reading that group's title
    raises.  [properties]: [None] when the manager's properties cannot be
    fetched or decoded; otherwise the decoded object, by key. *)
Record Item := {
  itemid : string;
  title : string;
  tags : list string;
  shared_with : option (list (option string));
  protected : bool;
  properties : option (gmap string string)
}.

(** ** checks.py: [tags_check] *)

(** One round of the loop over [orig_tags]. *)
Definition tags_body (title : string) (tags_to_delete uppercased_tags articles : list string)
    (new_tags : list string) (orig_tag : string) : list string :=
  let single_word_tag_in_title := Py.mem orig_tag (Py.split title) in
  let multi_word_tag_in_title :=
    Py.contains " " orig_tag && Py.contains orig_tag title in
  let lowercase_tag := Py.lower orig_tag in
  if bool_decide (lowercase_tag = "utah") && negb (Py.mem orig_tag (Py.split title)) then
    new_tags ++ ["Utah"]
  else if Py.mem lowercase_tag tags_to_delete then
    new_tags
  else if single_word_tag_in_title || multi_word_tag_in_title then
    new_tags
  else
    let cased_tag := tag_case orig_tag uppercased_tags articles in
    if negb (Py.mem cased_tag new_tags) then new_tags ++ [cased_tag] else new_tags.

(** The loop inside [try]: titles are appended one by one, so the titles
    read before an exception stay in [groups].  The flag tells whether the
    [except] clause ran. *)
Fixpoint read_titles (gs : list (option string)) (groups : list string)
  : list string * bool :=
  match gs with
  | [] => (groups, false)
  | Some t :: gs' => read_titles gs' (groups ++ [t])
  | None :: _ => (groups, true)
  end.

Definition read_groups (sw : option (list (option string))) : list string * bool :=
  match sw with
  | None => ([], true)
  | Some gs => read_titles gs []
  end.

(** One round of the loop over [groups]. *)
(** [group.split('Utah SGID ')[-1]] *)
Definition category_of (group : string) : string :=
  Py.last_piece (Py.split_sep "Utah SGID " group).

Definition category_body (new_tags : list string) (group : string) : list string :=
  if Py.contains "Utah SGID" group then
    let category := category_of group in
    let new_tags :=
      if Py.mem (Py.lower category) new_tags then
        Py.remove_first (Py.lower category) new_tags ++ [category]
      else if negb (Py.mem category new_tags) then new_tags ++ [category]
      else new_tags in
    let new_tags :=
      if negb (Py.mem "SGID" new_tags) then new_tags ++ ["SGID"] else new_tags in
    if negb (Py.mem "AGRC" new_tags) then new_tags ++ ["AGRC"] else new_tags
  else new_tags.

(** The locals of [tags_check] when it returns. *)
Record tags_locals := {
  tl_title : string;
  tl_failed_group_items : list string;
  tl_groups : list string;
  tl_new_tags : list string;
  tl_tags_data : pyobj
}.

Definition tags_check_run (item : Item) (tags_to_delete uppercased_tags articles : list string)
    (new_title : option string) : tags_locals :=
  let item_title := item.(title) in
  let title :=
    match new_title with
    | Some t => if truthy (PStr t) then t else item_title
    | None => item_title
    end in
  let orig_tags := map Py.strip item.(tags) in
  let new_tags :=
    fold_left (tags_body title tags_to_delete uppercased_tags articles) orig_tags [] in
  let '(groups, raised) := read_groups item.(shared_with) in
  let failed_group_items := if raised then [item_title] else [] in
  let new_tags := fold_left category_body groups new_tags in
  let tags_data :=
    if negb (bool_decide (Py.sorted new_tags = Py.sorted item.(tags))) then
      ODict [("fix_tags", PStr "Y"); ("old_tags", PList item.(tags));
             ("new_tags", PList new_tags)]
    else
      ODict [("fix_tags", PStr "N"); ("old_tags", PStr ""); ("new_tags", PStr "")] in
  {| tl_title := title; tl_failed_group_items := failed_group_items;
     tl_groups := groups; tl_new_tags := new_tags; tl_tags_data := tags_data |}.

Definition tags_check (item : Item) (tags_to_delete uppercased_tags articles : list string)
    (new_title : option string) : pyobj :=
  tl_tags_data (tags_check_run item tags_to_delete uppercased_tags articles new_title).

(** ** checks.py: the attribute checkers

    [metatable_dict] maps an item id to (table_sgid_name, table_agol_name). *)

Definition title_check (item : Item) (metatable_dict : gmap string (string * string)) : pyobj :=
  let table_agol_title :=
    match metatable_dict !! item.(itemid) with
    | Some row => PStr (snd row)
    | None => PNone
    end in
  if truthy table_agol_title && negb (py_eq table_agol_title (PStr item.(title))) then
    ODict [("fix_title", PStr "Y"); ("old_title", PStr item.(title));
           ("new_title", table_agol_title)]
  else
    ODict [("fix_title", PStr "N"); ("old_title", PStr ""); ("new_title", PStr "")].

(** [SGID_name.split('.')[1].title()] *)
Definition table_category_of (SGID_name : string) : exn + string :=
  match Py.split_sep "." SGID_name !! 1%nat with
  | Some seg => inr (Py.title seg)
  | None => inl IndexError
  end.

Definition folder_check (item : Item) (metatable_dict : gmap string (string * string))
    (itemid_and_folder : gmap string (option string)) : exn + pyobj :=
  match itemid_and_folder !! item.(itemid) with
  | None => inl KeyError
  | Some current_folder =>
      let table_folder : exn + pyval :=
        match metatable_dict !! item.(itemid) with
        | Some row =>
            match table_category_of (fst row) with
            | inr c => inr (PStr c)
            | inl e => inl e
            end
        | None => inr PNone
        end in
      match table_folder with
      | inl e => inl e
      | inr table_folder =>
          if truthy table_folder && negb (py_eq table_folder (of_opt current_folder)) then
            inr (ODict [("fix_folder", PStr "Y"); ("old_folder", of_opt current_folder);
                        ("new_folder", table_folder)])
          else
            inr (ODict [("fix_folder", PStr "N"); ("old_folder", PStr "");
                        ("new_folder", PStr "")])
      end
  end.

(** The list comprehension inside [try]: all titles, or the exception. *)
Definition group_titles (sw : option (list (option string))) : option (list string) :=
  match sw with
  | None => None
  | Some gs => mapM id gs
  end.

Definition current_groups_of (item : Item) : list string :=
  match group_titles item.(shared_with) with
  | Some l => l
  | None => ["Error"]
  end.

Definition groups_check (item : Item) (metatable_dict : gmap string (string * string))
  : exn + pyobj :=
  let current_groups := current_groups_of item in
  let group : exn + option string :=
    match metatable_dict !! item.(itemid) with
    | Some row =>
        match table_category_of (fst row) with
        | inr table_category => inr (Some ("Utah SGID " +:+ table_category))
        | inl e => inl e
        end
    | None => inr None
    end in
  match group with
  | inl e => inl e
  | inr group =>
      if py_eq (PList current_groups) (PStr "Error") then
        inr (OList [PStr "N"; PStr "Can't get group"; PStr ""])
      else if truthy (of_opt group) &&
              negb (match group with Some g => Py.mem g current_groups | None => false end) then
        inr (ODict [("fix_groups", PStr "Y"); ("old_groups", PList current_groups);
                    ("new_group", of_opt group)])
      else
        inr (ODict [("fix_groups", PStr "N"); ("old_groups", PStr ""); ("new_group", PStr "")])
  end.

(** [properties and 'Extract' not in properties['capabilities']], with
    [properties] set to [None] by the [except] clause. *)
Definition extract_missing (item : Item) : exn + bool :=
  match item.(properties) with
  | Some props =>
      if bool_decide (props ≠ ∅) then
        match props !! "capabilities" with
        | None => inl KeyError
        | Some capabilities => inr (negb (Py.contains "Extract" capabilities))
        end
      else inr false
  | None => inr false
  end.

Definition downloads_check (item : Item) : exn + pyobj :=
  match extract_missing item with
  | inl e => inl e
  | inr true => inr (ODict [("fix_downloads", PStr "Y")])
  | inr false => inr (ODict [("fix_downloads", PStr "N")])
  end.

Definition delete_protection_check (item : Item) : pyobj :=
  if negb item.(protected) then ODict [("fix_delete_protection", PStr "Y")]
  else ODict [("fix_delete_protection", PStr "N")].

(** ** validate.py: the check phase

    The report is a data frame: one row per index entry, in order; a cell
    that was never assigned (NaN) is absent from the row's map. *)

Abbreviation frame := (list (string * gmap string pyval)).

Definition columns : list string :=
  ["fix_title"; "old_title"; "new_title";
   "fix_groups"; "old_groups"; "new_group";
   "fix_folder"; "old_folder"; "new_folder";
   "fix_tags"; "old_tags"; "new_tags";
   "fix_downloads";
   "fix_delete_protection"].

(** [pd.DataFrame(index=itemids, columns=columns)] *)
Definition new_frame (index : list string) : frame :=
  map (fun i => (i, (∅ : gmap string pyval))) index.

Fixpoint set_cells (row : gmap string pyval) (cols : list string) (data : list pyval)
  : gmap string pyval :=
  match cols, data with
  | c :: cols', v :: data' => set_cells (<[c := v]> row) cols' data'
  | _, _ => row
  end.

(** [report.loc[itemid, cols] = data]: every row carrying that index label. *)
Definition loc_set (report : frame) (itemid : string) (cols : list string)
    (data : list pyval) : frame :=
  map (fun r => if decide (r.1 = itemid) then (r.1, set_cells r.2 cols data) else r) report.

(** [x in l] for a value [x] and a list of strings. *)
Definition py_in (x : pyval) (l : list string) : bool :=
  existsb (fun s => py_eq x (PStr s)) l.

(** A computation that may raise. *)
Global Instance exn_ret : MRet (sum exn) := λ A x, inr x.

Global Instance exn_bind : MBind (sum exn) := λ A B f m,
  match m with
  | inl e => inl e
  | inr a => f a
  end.

(** The names checks.py defines; [checks.name] raises for any other. *)
Definition checks_names : list string :=
  ["tag_case"; "tags_check"; "title_check"; "folder_check"; "groups_check";
   "downloads_check"; "delete_protection_check"].

Definition checks_getattr (name : string) : exn + string :=
  if Py.mem name checks_names then inr name else inl AttributeError.

Section check_phase.

(** [checks.check_tags] and [checks.get_category_and_name] are called by
    [check_items] and are not among [checks_names]; they are taken as given.
    The first returns the new tag list, the second the triple
    (title, group, folder). *)
Variable check_tags : Item → list string → list string → list string → list string.
Variable get_category_and_name :
  Item → gmap string (string * string) → pyval * pyval * pyval.

Variable metatable_dict : gmap string (string * string).
Variable itemid_and_folder : gmap string (option string).

(** The title check of [check_items]: the data assigned to the columns
    ['fix_title', 'old_title', 'new_title']. *)
Definition title_data_of (item : Item) (new_title : pyval) : list pyval :=
  if negb (py_eq new_title (PStr item.(title)))
  then [PStr "Y"; PStr item.(title); new_title]
  else [PStr "N"; PStr item.(title); PStr ""].

(** The folder check of [check_items]. *)
Definition folder_data_of (folder : pyval) (current_folder : option string) : list pyval :=
  if negb (py_eq folder (of_opt current_folder))
  then [PStr "Y"; of_opt current_folder; folder]
  else [PStr "N"; PStr ""; PStr ""].

(** The groups check of [check_items]: the data assigned to the columns
    ['fix_tags', 'old_groups', 'new_group']. *)
Definition groups_data_of (item : Item) (group : pyval) : list pyval :=
  let current_groups := current_groups_of item in
  if py_eq (PList current_groups) (PStr "Error") then
    [PStr "N"; PStr "Can't get group"; PStr ""]
  else if negb (py_in group current_groups) then
    [PStr "Y"; PStr (Py.join "; " current_groups); group]
  else
    [PStr "N"; PStr ""; PStr ""].

(** The body of the loop of [check_items]. *)
Definition check_item (report : frame) (item : Item) : exn + frame :=
  let item_tags := item.(tags) in
  let tags := check_tags item tags_to_delete uppercased_tags articles in
  let '(title, group, folder) := get_category_and_name item metatable_dict in
  let itemid := item.(itemid) in
  report ←
    (if negb (py_eq title (PStr "Not SGID")) then
       let title_data := title_data_of item title in
       let report := loc_set report itemid ["fix_title"; "old_title"; "new_title"] title_data in
       let groups_data := groups_data_of item group in
       let report := loc_set report itemid ["fix_tags"; "old_groups"; "new_group"] groups_data in
       match itemid_and_folder !! itemid with
       | None => inl KeyError
       | Some current_folder =>
           let folder_data := folder_data_of folder current_folder in
           inr (loc_set report itemid ["fix_folder"; "old_folder"; "new_folder"] folder_data)
       end
     else inr report) ;
  let tags_data :=
    if negb (bool_decide (Py.sorted tags = Py.sorted item_tags))
    then [PStr "Y"; PStr (Py.join "; " item_tags); PStr (Py.join "; " tags)]
    else [PStr "N"; PStr ""; PStr ""] in
  let report := loc_set report itemid ["fix_tags"; "old_tags"; "new_tags"] tags_data in
  missing ← extract_missing item;
  let protect_data := if (missing : bool) then [PStr "Y"] else [PStr "N"] in
  let report := loc_set report itemid ["fix_downloads"] protect_data in
  let protect_data := if negb item.(protected) then [PStr "Y"] else [PStr "N"] in
  inr (loc_set report itemid ["fix_delete_protection"] protect_data).

Fixpoint check_loop (report : frame) (items : list Item) : exn + frame :=
  match items with
  | [] => inr report
  | item :: items' => report ← check_item report item; check_loop report items'
  end.

(** [check_items]: the report it returns (and writes to [report_path]). *)
Definition check_items (feature_service_items : list Item) : exn + frame :=
  let itemids := map itemid feature_service_items in
  check_loop (new_frame itemids) feature_service_items.

End check_phase.

(** ** validate.py: the fix phase *)

(** [l[key]] on a Python list: an integer key counts positions (from the end
    when negative); any other key is a [TypeError]. *)
Definition subscript {A} (l : list A) (key : pyval) : exn + A :=
  match key with
  | PInt z =>
      let n := Z.of_nat (length l) in
      let pos := if (z <? 0)%Z then (n + z)%Z else z in
      if ((0 <=? pos) && (pos <? n))%Z then
        match l !! Z.to_nat pos with
        | Some x => inr x
        | None => inl IndexError
        end
      else inl IndexError
  | _ => inl TypeError
  end.

(** The calls [fix_items] issues against the platform, each on the item
    object it holds; a cell that was never assigned is [None]. *)
Inductive mutation :=
  | Update (target : Item) (new_title : option (option pyval))
           (new_tags : option (list string))
  | Share (target : Item) (new_group : option pyval)
  | Move (target : Item) (new_folder : option pyval)
  | Protect (target : Item)
  | UpdateDefinition (target : Item).

(** [row[col] == 'Y'] *)
Definition is_Y (row : gmap string pyval) (col : string) : bool :=
  match row !! col with
  | Some v => py_eq v (PStr "Y")
  | None => false
  end.

(** The body of the loop of [fix_items]: the calls issued so far and the
    exception, if one is raised. *)
Definition fix_row (feature_service_items : list Item) (log : list mutation)
    (itemid : string) (row : gmap string pyval) : list mutation * option exn :=
  match subscript feature_service_items (PStr itemid) with
  | inl e => (log, Some e)
  | inr item =>
      let update_title :=
        if is_Y row "fix_title" then Some (row !! "new_title") else None in
      let update_tags : exn + option (list string) :=
        if is_Y row "fix_tags" then
          match row !! "new_tags" with
          | Some (PStr new_tags) => inr (Some (Py.split_sep "; " new_tags))
          | _ => inl AttributeError
          end
        else inr None in
      match update_tags with
      | inl e => (log, Some e)
      | inr update_tags =>
          let log :=
            match update_title, update_tags with
            | None, None => log
            | _, _ => log ++ [Update item update_title update_tags]
            end in
          let log :=
            if is_Y row "fix_groups" then log ++ [Share item (row !! "new_group")] else log in
          let log :=
            if is_Y row "fix_folder" then log ++ [Move item (row !! "new_folder")] else log in
          let log :=
            if is_Y row "fix_delete_protection" then log ++ [Protect item] else log in
          let log :=
            if is_Y row "fix_downloads" then log ++ [UpdateDefinition item] else log in
          (log, None)
      end
  end.

Fixpoint fix_loop (feature_service_items : list Item) (log : list mutation)
    (report_dict : frame) : list mutation * option exn :=
  match report_dict with
  | [] => (log, None)
  | (itemid, row) :: rest =>
      match fix_row feature_service_items log itemid row with
      | (log, None) => fix_loop feature_service_items log rest
      | (log, Some e) => (log, Some e)
      end
  end.

(** [fix_items]: [report.to_dict('index')] refuses a repeated index label;
    otherwise the rows are visited in order. *)
Definition fix_items (feature_service_items : list Item) (report : frame)
  : list mutation * option exn :=
  if bool_decide (NoDup (map fst report)) then
    fix_loop feature_service_items [] report
  else ([], Some ValueError).

(** ** The invariant of the result rows *)

Definition populated (k : string) (o : pyobj) : bool :=
  match field k o with
  | Some v => truthy v
  | None => false
  end.

Definition needs_fix (k : string) (o : pyobj) : bool :=
  bool_decide (field k o = Some (PStr "Y")).

Definition no_fix (k : string) (o : pyobj) : bool :=
  bool_decide (field k o = Some (PStr "N")).

(** As the specification words it: no fix exactly when the old and new
    values are empty, a fix exactly when both are populated. *)
Definition row_invariant (flag old new : string) (o : pyobj) : bool :=
  Bool.eqb (no_fix flag o) (negb (populated old o) && negb (populated new o)) &&
  Bool.eqb (needs_fix flag o) (populated old o && populated new o).

(** As the checkers keep it: the flag is 'Y' or 'N'; no fix exactly when the
    old and new values are both empty, a fix exactly when one of them is
    populated. *)
Definition row_invariant_kept (flag old new : string) (o : pyobj) : bool :=
  (needs_fix flag o || no_fix flag o) &&
  Bool.eqb (no_fix flag o) (negb (populated old o) && negb (populated new o)) &&
  Bool.eqb (needs_fix flag o) (populated old o || populated new o).

(** A checker with a desired value: a fix always carries it. *)
Definition fix_has_new (flag new : string) (o : pyobj) : bool :=
  implb (needs_fix flag o) (populated new o).

(** A checker without old and new values: the flag alone. *)
Definition flag_only (flag : string) (o : pyobj) : bool :=
  bool_decide (o = ODict [(flag, PStr "Y")]) || bool_decide (o = ODict [(flag, PStr "N")]).

(** [holds p r]: the result, when the checker returns one, satisfies [p]. *)
Definition holds (p : pyobj → bool) (r : exn + pyobj) : bool :=
  match r with
  | inr o => p o
  | inl _ => true
  end.

(** The titles read before the first group whose title cannot be read. *)
Fixpoint titles_before (gs : list (option string)) : list string :=
  match gs with
  | Some t :: gs' => t :: titles_before gs'
  | _ => []
  end.

(** ** A second pass of the reconciler *)

(** The item after the tag update of the fix phase: its tags are the new
    tags when the result asks for a fix, and stay as they are otherwise. *)
Definition retag (item : Item) (tags_data : pyobj) : Item :=
  match field "fix_tags" tags_data, field "new_tags" tags_data with
  | Some (PStr "Y"), Some (PList new_tags) =>
      {| itemid := item.(itemid); title := item.(title); tags := new_tags;
         shared_with := item.(shared_with); protected := item.(protected);
         properties := item.(properties) |}
  | _, _ => item
  end.

(** A tag the reconciler leaves alone: it is trimmed and, reconciled on its
    own, it is kept as it is (not deleted, not found in the title, not
    re-cased). *)
Definition settled_tag (title : string) (tags_to_delete uppercased_tags articles : list string)
    (t : string) : bool :=
  bool_decide (Py.strip t = t) &&
  bool_decide (tags_body title tags_to_delete uppercased_tags articles [] t = [t]).

(** No tag other than 'Utah' occurs twice. *)
Fixpoint once_each (l : list string) : bool :=
  match l with
  | [] => true
  | t :: l' => (bool_decide (t = "Utah") || negb (Py.mem t l')) && once_each l'
  end.

(** The category of a 'Utah SGID' group is among the tags, and its
    lower-case form is not, unless the category is itself in lower case. *)
Definition settled_category (new_tags : list string) (group : string) : bool :=
  negb (Py.contains "Utah SGID" group) ||
  (let category := category_of group in
   Py.mem category new_tags &&
   (negb (Py.mem (Py.lower category) new_tags) ||
    bool_decide (Py.lower category = category))).

Definition settled (title : string) (tags_to_delete uppercased_tags articles : list string)
    (groups new_tags : list string) : bool :=
  forallb (settled_tag title tags_to_delete uppercased_tags articles) new_tags &&
  once_each new_tags &&
  forallb (settled_category new_tags) groups.

(** ** The per-tag rules of [tags_check], one by one *)

(** The tag is 'utah' in some casing and is not itself a word of the title. *)
Definition utah_tag (title orig_tag : string) : bool :=
  bool_decide (Py.lower orig_tag = "utah") && negb (Py.mem orig_tag (Py.split title)).

(** The tag is on the delete list, or is a word of the title, or holds a
    blank and is part of the title. *)
Definition dropped_tag (title : string) (tags_to_delete : list string)
    (orig_tag : string) : bool :=
  Py.mem (Py.lower orig_tag) tags_to_delete ||
  (Py.mem orig_tag (Py.split title) ||
   Py.contains " " orig_tag && Py.contains orig_tag title).

(** No title among the groups holds 'Utah SGID'. *)
Definition no_sgid_group (groups : list string) : bool :=
  forallb (λ group, negb (Py.contains "Utah SGID" group)) groups.

(** The item with other tags. *)
Definition set_tags (item : Item) (new_tags : list string) : Item :=
  {| itemid := item.(itemid); title := item.(title); tags := new_tags;
     shared_with := item.(shared_with); protected := item.(protected);
     properties := item.(properties) |}.

(** ** validate.py: the constructor

    What the platform and the catalog table hand to [__init__]: the titles
    of the user's folders, the items of each folder ([None] is the root) each
    with its type, and the rows (TABLENAME, AGOL_ITEM_ID, AGOL_PUBLISHED_NAME)
    of the metatable.  The three class attributes start out empty. *)
Record validator := {
  v_feature_service_items : list Item;
  v_itemid_and_folder : gmap string (option string);
  v_metatable_dict : gmap string (string * string)
}.

(** [folders = [None]] and the appended titles. *)
Definition init_folders (folder_titles : list string) : list (option string) :=
  None :: map Some folder_titles.

(** One round of the inner loop: a 'Feature Service' item is appended and
    its folder recorded. *)
Definition init_item (folder : option string)
    (st : list Item * gmap string (option string)) (typed_item : string * Item)
  : list Item * gmap string (option string) :=
  if bool_decide (typed_item.1 = "Feature Service") then
    (st.1 ++ [typed_item.2], <[typed_item.2.(itemid) := folder]> st.2)
  else st.

Definition init_walk (items_of : option string → list (string * Item))
    (folders : list (option string)) (st : list Item * gmap string (option string))
  : list Item * gmap string (option string) :=
  fold_left (λ st folder, fold_left (init_item folder) (items_of folder) st) folders st.

(** One round of the loop over the table cursor. *)
Definition init_row (m : gmap string (string * string)) (row : string * string * string)
  : gmap string (string * string) :=
  let '(table_sgid_name, table_agol_itemid, table_agol_name) := row in
  <[table_agol_itemid := (table_sgid_name, table_agol_name)]> m.

Definition init (folder_titles : list string)
    (items_of : option string → list (string * Item))
    (rows : list (string * string * string)) : validator :=
  let st := init_walk items_of (init_folders folder_titles) ([], ∅) in
  {| v_feature_service_items := st.1;
     v_itemid_and_folder := st.2;
     v_metatable_dict := fold_left init_row rows ∅ |}.

(** Every listed item has a folder on record, and that folder is one in
    which a feature service of that identifier was found. *)
Definition recorded (items_of : option string → list (string * Item))
    (folders : list (option string))
    (st : list Item * gmap string (option string)) : Prop :=
  Forall (λ item,
            ∃ folder item',
              st.2 !! item.(itemid) = Some folder ∧ folder ∈ folders ∧
              ("Feature Service", item') ∈ items_of folder ∧
              item'.(itemid) = item.(itemid)) st.1.

(** The AGOL_ITEM_ID column of the rows. *)
Definition row_ids (rows : list (string * string * string)) : list string :=
  map (λ row, row.1.2) rows.

(** ** The scenario of the specification *)

Definition bicycle_tags : list string := ["Cycle Net"; ".SD"; "utah"; "water-related"].

Definition bicycle_network (id : string) (sw : option (list (option string)))
    (prot : bool) (props : option (gmap string string)) : Item :=
  {| itemid := id; title := "Bicycle Network"; tags := bicycle_tags;
     shared_with := sw; protected := prot; properties := props |}.

(** An item of the catalog whose group lookup raises. *)
Definition counties_item : Item :=
  {| itemid := "0df199cef1704e5287ae675ce3dbd3bd"; title := "Utah Counties";
     tags := ["Boundaries"]; shared_with := None; protected := true;
     properties := None |}.

Definition counties_metatable : gmap string (string * string) :=
  {[ "0df199cef1704e5287ae675ce3dbd3bd" := ("SGID.BOUNDARIES.Counties", "Utah Counties") ]}.

(** The same item, shared with no group. *)
Definition counties_unshared : Item :=
  {| itemid := "0df199cef1704e5287ae675ce3dbd3bd"; title := "Utah Counties";
     tags := ["Boundaries"]; shared_with := Some []; protected := true;
     properties := None |}.

(** An item whose second group cannot be read. *)
Definition roads_item : Item :=
  {| itemid := "478fbccdc0a24e62b8b4fd9d8d7ac015"; title := "Utah Roads";
     tags := ["Transportation"; "sgid"];
     shared_with := Some [Some "Utah SGID Transportation"; None];
     protected := false; properties := None |}.

(** Stand-ins for the two helpers [check_items] calls, to run it on an
    example: the tags of [tags_check], and the catalog's name, group and
    folder ('Not SGID' for an item outside the catalog). *)
Definition example_check_tags (item : Item) (tags_to_delete uppercased_tags articles : list string)
  : list string :=
  tl_new_tags (tags_check_run item tags_to_delete uppercased_tags articles None).

Definition example_category_and_name (item : Item)
    (metatable_dict : gmap string (string * string)) : pyval * pyval * pyval :=
  match metatable_dict !! item.(itemid) with
  | Some row =>
      match table_category_of row.1 with
      | inr category => (PStr row.2, PStr ("Utah SGID " +:+ category), PStr category)
      | inl _ => (PStr "Not SGID", PNone, PNone)
      end
  | None => (PStr "Not SGID", PNone, PNone)
  end.

(** An item whose title holds the word 'Utah'. *)
Definition utah_roads : Item :=
  {| itemid := "478fbccdc0a24e62b8b4fd9d8d7ac015"; title := "Utah Roads";
     tags := ["utah"]; shared_with := Some []; protected := true;
     properties := None |}.

(** A root folder with a feature service and a web map, and one more
    folder with a feature service. *)
Definition example_items_of (folder : option string) : list (string * Item) :=
  match folder with
  | None => [("Feature Service", counties_item); ("Web Map", utah_roads)]
  | Some _ => [("Feature Service", roads_item)]
  end.

(** * Properties *)

(** ** Characters *)

Local Ltac by_chars :=
  let c := fresh "c" in
  intros c; destruct c as [[] [] [] [] [] [] [] []]; vm_compute; reflexivity.

Lemma lower_upper_char : ∀ c, Py.lower_char (Py.upper_char c) = Py.lower_char c.
Proof. by_chars. Qed.

Lemma lower_lower_char : ∀ c, Py.lower_char (Py.lower_char c) = Py.lower_char c.
Proof. by_chars. Qed.

Lemma upper_upper_char : ∀ c, Py.upper_char (Py.upper_char c) = Py.upper_char c.
Proof. by_chars. Qed.

Lemma is_cased_upper_char : ∀ c, Py.is_cased (Py.upper_char c) = Py.is_cased c.
Proof. by_chars. Qed.

Lemma is_cased_lower_char : ∀ c, Py.is_cased (Py.lower_char c) = Py.is_cased c.
Proof. by_chars. Qed.

Lemma is_space_upper_char : ∀ c, Py.is_space (Py.upper_char c) = Py.is_space c.
Proof. by_chars. Qed.

Lemma is_space_lower_char : ∀ c, Py.is_space (Py.lower_char c) = Py.is_space c.
Proof. by_chars. Qed.

Lemma is_dot_upper_char : ∀ c, Ascii.eqb (Py.upper_char c) "." = Ascii.eqb c ".".
Proof. by_chars. Qed.

Lemma is_dot_lower_char : ∀ c, Ascii.eqb (Py.lower_char c) "." = Ascii.eqb c ".".
Proof. by_chars. Qed.


(** ** Strings *)

Lemma sapp_nil_l s : "" +:+ s = s.
Proof. reflexivity. Qed.

Lemma sapp_cons c s1 s2 : String c s1 +:+ s2 = String c (s1 +:+ s2).
Proof. reflexivity. Qed.

Lemma sapp_nil_r s : s +:+ "" = s.
Proof. induction s as [|c s IH]; [done|]. by rewrite sapp_cons, IH. Qed.

Lemma sapp_assoc s1 s2 s3 : (s1 +:+ s2) +:+ s3 = s1 +:+ (s2 +:+ s3).
Proof. induction s1 as [|c s1 IH]; [done|]. by rewrite !sapp_cons, IH. Qed.

Lemma sapp_snoc cur c s : (cur +:+ String c "") +:+ s = cur +:+ String c s.
Proof. by rewrite sapp_assoc. Qed.

Lemma all_chars_app p s1 s2 :
  all_chars p (s1 +:+ s2) = all_chars p s1 && all_chars p s2.
Proof.
  induction s1 as [|c s1 IH]; [done|].
  rewrite sapp_cons. simpl. by rewrite IH, andb_assoc.
Qed.

(** Case conversions. *)

Lemma lower_upper s : Py.lower (Py.upper s) = Py.lower s.
Proof. induction s as [|c s IH]; simpl; [done|]. by rewrite lower_upper_char, IH. Qed.

Lemma lower_lower s : Py.lower (Py.lower s) = Py.lower s.
Proof. induction s as [|c s IH]; simpl; [done|]. by rewrite lower_lower_char, IH. Qed.

Lemma upper_upper s : Py.upper (Py.upper s) = Py.upper s.
Proof. induction s as [|c s IH]; simpl; [done|]. by rewrite upper_upper_char, IH. Qed.

Lemma lower_title_go b s : Py.lower (Py.title_go b s) = Py.lower s.
Proof.
  revert b; induction s as [|c s IH]; intros b; simpl; [done|].
  rewrite IH. by destruct b; rewrite ?lower_lower_char, ?lower_upper_char.
Qed.

Lemma title_go_idem b s : Py.title_go b (Py.title_go b s) = Py.title_go b s.
Proof.
  revert b; induction s as [|c s IH]; intros b; simpl; [done|].
  destruct b; rewrite ?is_cased_lower_char, ?is_cased_upper_char, IH,
    ?lower_lower_char, ?upper_upper_char; done.
Qed.

Lemma title_go_hyphen b u v :
  Py.title_go b (u +:+ "-" +:+ v) = Py.title_go b u +:+ "-" +:+ Py.title_go false v.
Proof.
  revert b; induction u as [|c u IH]; intros b.
  - rewrite !sapp_nil_l, !sapp_cons. by destruct b.
  - rewrite !sapp_cons. simpl. by rewrite sapp_cons, IH.
Qed.

(** Title-casing starts afresh after a hyphen. *)
Lemma title_hyphen u v :
  Py.title (u +:+ "-" +:+ v) = Py.title u +:+ "-" +:+ Py.title v.
Proof. apply title_go_hyphen. Qed.

(** What the case conversions keep of a word. *)

Section char_maps.
Variable p : ascii → bool.
Hypothesis p_upper : ∀ c, p (Py.upper_char c) = p c.
Hypothesis p_lower : ∀ c, p (Py.lower_char c) = p c.

Lemma all_chars_upper s : all_chars p (Py.upper s) = all_chars p s.
Proof. induction s as [|c s IH]; simpl; [done|]. by rewrite p_upper, IH. Qed.

Lemma all_chars_lower s : all_chars p (Py.lower s) = all_chars p s.
Proof. induction s as [|c s IH]; simpl; [done|]. by rewrite p_lower, IH. Qed.

Lemma all_chars_title_go b s : all_chars p (Py.title_go b s) = all_chars p s.
Proof.
  revert b; induction s as [|c s IH]; intros b; simpl; [done|].
  rewrite IH. by destruct b; rewrite ?p_upper, ?p_lower.
Qed.
End char_maps.

Lemma upper_nil s : Py.upper s = "" ↔ s = "".
Proof. by destruct s. Qed.

Lemma lower_nil s : Py.lower s = "" ↔ s = "".
Proof. by destruct s. Qed.

Lemma title_nil s : Py.title s = "" ↔ s = "".
Proof. by destruct s. Qed.

Lemma no_dot_remove s : no_dot (Py.remove_char "." s) = true.
Proof.
  induction s as [|c s IH]; simpl; [done|].
  destruct (Ascii.eqb c ".") eqn:E; [done|]. unfold no_dot in *. simpl. by rewrite E.
Qed.

Lemma remove_no_dot s : no_dot s = true → Py.remove_char "." s = s.
Proof.
  unfold no_dot. induction s as [|c s IH]; simpl; [done|].
  intros [Hc Hs]%andb_true_iff. destruct (Ascii.eqb c "."); [done|]. by rewrite IH.
Qed.

Lemma no_blank_remove x s : no_blank s = true → no_blank (Py.remove_char x s) = true.
Proof.
  unfold no_blank. induction s as [|c s IH]; simpl; [done|].
  intros [Hc Hs]%andb_true_iff. destruct (Ascii.eqb c x); simpl; [auto|].
  rewrite Hc. auto.
Qed.

(** ** [split] and [join] *)

Lemma split_go_word w cur s :
  no_blank w = true → Py.split_go cur (w +:+ s) = Py.split_go (cur +:+ w) s.
Proof.
  unfold no_blank. revert cur; induction w as [|c w IH]; intros cur.
  - intros _. by rewrite sapp_nil_l, sapp_nil_r.
  - simpl. intros [Hc Hw]%andb_true_iff.
    apply negb_true_iff in Hc. rewrite Hc, IH by done. by rewrite sapp_snoc.
Qed.

Lemma split_go_blank cur s :
  Py.split_go cur (" " +:+ s) = Py.flush cur ++ Py.split_go "" s.
Proof. reflexivity. Qed.

Lemma flush_word w : w ≠ "" → Py.flush w = [w].
Proof. by destruct w. Qed.

Lemma split_join l : Forall word_ok l → Py.split (Py.join " " l) = l.
Proof.
  unfold Py.split. induction 1 as [|w l [Hne Hw] Hl IH]; [done|].
  destruct l as [|w' l].
  - simpl. rewrite <-(sapp_nil_r w) at 1.
    rewrite split_go_word, sapp_nil_l by done. simpl. by apply flush_word.
  - change (Py.join " " (w :: w' :: l)) with (w +:+ " " +:+ Py.join " " (w' :: l)).
    rewrite split_go_word, sapp_nil_l, split_go_blank, IH by done.
    by rewrite flush_word.
Qed.

Lemma split_go_words s : ∀ cur,
  no_blank cur = true → Forall word_ok (Py.split_go cur s).
Proof.
  induction s as [|c s IH]; intros cur Hcur; simpl.
  - destruct cur; [constructor|]. by repeat constructor.
  - destruct (Py.is_space c) eqn:Hc.
    + apply Forall_app; split; [|by apply IH].
      destruct cur; [constructor|]. by repeat constructor.
    + apply IH. unfold no_blank in *. rewrite all_chars_app, Hcur. simpl.
      by rewrite Hc.
Qed.

Lemma split_words s : Forall word_ok (Py.split s).
Proof. by apply split_go_words. Qed.

(** ** [tag_case] *)

Lemma tag_case_loop uppercased articles words new_words :
  fold_left (tag_case_body uppercased articles) words new_words =
  new_words ++ map (normalize_word uppercased articles) words.
Proof.
  revert new_words; induction words as [|w words IH]; intros new_words; simpl.
  - by rewrite app_nil_r.
  - rewrite IH. unfold tag_case_body, normalize_word.
    repeat case_match; by rewrite <-app_assoc.
Qed.

Lemma tag_case_normalize tag uppercased articles :
  tag_case tag uppercased articles = normalize tag uppercased articles.
Proof. unfold tag_case, normalize. by rewrite tag_case_loop. Qed.

Lemma normalize_word_lower uppercased articles w :
  Py.lower (normalize_word uppercased articles w) = Py.lower (Py.remove_char "." w).
Proof.
  unfold normalize_word. repeat case_match;
    [apply lower_upper | apply lower_lower | apply lower_title_go].
Qed.

Lemma normalize_word_no_dot uppercased articles w :
  no_dot (normalize_word uppercased articles w) = true.
Proof.
  unfold normalize_word, no_dot, Py.title.
  repeat case_match;
    rewrite ?all_chars_upper, ?all_chars_lower, ?all_chars_title_go;
    try apply no_dot_remove; intros c; by rewrite ?is_dot_upper_char, ?is_dot_lower_char.
Qed.

Lemma normalize_word_ok uppercased articles w :
  word_ok w → only_dots w = false → word_ok (normalize_word uppercased articles w).
Proof.
  intros [_ Hw] Hd. apply bool_decide_eq_false in Hd.
  apply (no_blank_remove ".") in Hw.
  unfold normalize_word, word_ok, no_blank, Py.title in *.
  repeat case_match;
    rewrite ?all_chars_upper, ?all_chars_lower, ?all_chars_title_go, ?upper_nil,
      ?lower_nil, ?title_nil; try done;
    intros c; by rewrite ?is_space_upper_char, ?is_space_lower_char.
Qed.

Lemma normalize_word_idem uppercased articles w :
  normalize_word uppercased articles (normalize_word uppercased articles w) =
  normalize_word uppercased articles w.
Proof.
  pose proof (normalize_word_lower uppercased articles w) as Hl.
  pose proof (normalize_word_no_dot uppercased articles w) as Hd.
  apply remove_no_dot in Hd.
  unfold normalize_word at 1. rewrite Hd, Hl.
  unfold normalize_word.
  repeat case_match; try congruence;
    first [apply upper_upper | apply lower_lower | apply title_go_idem].
Qed.

Lemma existsb_false {A} (p : A → bool) l :
  existsb p l = false → Forall (λ x, p x = false) l.
Proof.
  induction l as [|x l IH]; simpl; [constructor|].
  intros [??]%orb_false_iff. constructor; auto.
Qed.

(** C8: [tag_case] is the normalizer of the specification: the tag is split
    on whitespace, each word loses its periods and is upper-cased when its
    lower-case form is in the upper-case list, lower-cased when it is in the
    article list, title-cased otherwise, and the words are joined by single
    blanks; title-casing starts afresh after a hyphen; and the four documented
    tags come out as 'AGRC', 'PLSS Fabric', 'Water-Related' and
    'US Bureau of Geoinformation'. *)
Theorem tag_case_spec :
  (∀ tag uppercased articles,
     tag_case tag uppercased articles = normalize tag uppercased articles) ∧
  (∀ u v, Py.title (u +:+ "-" +:+ v) = Py.title u +:+ "-" +:+ Py.title v) ∧
  tag_case "agrc" uppercased_tags articles = "AGRC" ∧
  tag_case "Plss Fabric" uppercased_tags articles = "PLSS Fabric" ∧
  tag_case "water-related" uppercased_tags articles = "Water-Related" ∧
  tag_case "U.S. bureau Of Geoinformation" uppercased_tags articles =
    "US Bureau of Geoinformation".
Proof.
  split; [apply tag_case_normalize|].
  split; [apply title_hyphen|].
  repeat split; vm_compute; reflexivity.
Qed.

(** C7 (as stated) fails: a word made of a period only leaves an empty word,
    so the first pass joins with two blanks and the second pass with one. *)
Lemma tag_case_not_idempotent :
  tag_case (tag_case "a . b" uppercased_tags articles) uppercased_tags articles ≠
  tag_case "a . b" uppercased_tags articles.
Proof. vm_compute. discriminate. Qed.

(** C7 (as amended): for every tag none of whose words is made of periods
    only, and for any upper-case and article lists, [tag_case] applied to its
    own result returns that result. *)
Theorem tag_case_idempotent tag uppercased articles :
  has_dot_word tag = false →
  tag_case (tag_case tag uppercased articles) uppercased articles =
  tag_case tag uppercased articles.
Proof.
  intros Hd%existsb_false. rewrite !tag_case_normalize.
  unfold normalize at 1 2.
  (* the first result splits back into its normalized words *)
  rewrite split_join.
  - unfold normalize. f_equal. rewrite <-list_fmap_compose.
    apply list_fmap_ext. intros _ w _. apply normalize_word_idem.
  - pose proof (split_words tag) as Hw.
    induction Hw as [|w ws Hw Hws IH]; [constructor|].
    apply Forall_cons in Hd as [Hd1 Hd2]. constructor.
    + by apply normalize_word_ok.
    + by apply IH.
Qed.

Lemma tag_case_idempotent_witness :
  has_dot_word "U.S. bureau Of Geoinformation" = false ∧
  tag_case (tag_case "U.S. bureau Of Geoinformation" uppercased_tags articles)
    uppercased_tags articles =
  tag_case "U.S. bureau Of Geoinformation" uppercased_tags articles.
Proof.
  split; [reflexivity|].
  apply (tag_case_idempotent "U.S. bureau Of Geoinformation" uppercased_tags articles).
  reflexivity.
Defined.

(** ** [tags_check]: lists *)

Lemma mem_true x l : Py.mem x l = true ↔ x ∈ l.
Proof. unfold Py.mem. apply bool_decide_eq_true. Qed.

Lemma mem_false x l : Py.mem x l = false ↔ x ∉ l.
Proof. unfold Py.mem. apply bool_decide_eq_false. Qed.

Lemma remove_first_app_notin x P S :
  x ∉ P → Py.remove_first x (P ++ S) = P ++ Py.remove_first x S.
Proof.
  induction P as [|y P IH]; simpl; [done|].
  intros [Hy HP]%not_elem_of_cons. rewrite decide_False by done. by rewrite IH.
Qed.

Lemma sorted_eq_perm l1 l2 : Py.sorted l1 = Py.sorted l2 ↔ l1 ≡ₚ l2.
Proof.
  unfold Py.sorted. split.
  - intros H. rewrite <-(merge_sort_Permutation String.le l1), H.
    apply merge_sort_Permutation.
  - intros H. apply (Sorted_unique String.le).
    + apply Sorted_merge_sort, _.
    + apply Sorted_merge_sort, _.
    + by rewrite !merge_sort_Permutation.
Qed.

(** A prefix none of whose tags is in lower case survives the category
    loop: only lower-case tags are ever removed. *)
Lemma category_body_prefix P S group :
  (∀ x, Py.lower x ∉ P) → ∃ S', category_body (P ++ S) group = P ++ S'.
Proof.
  intros HP. unfold category_body.
  destruct (Py.contains "Utah SGID" group); [|by eexists].
  set (category := category_of _).
  assert (∃ S1, (if Py.mem (Py.lower category) (P ++ S)
                 then Py.remove_first (Py.lower category) (P ++ S) ++ [category]
                 else if negb (Py.mem category (P ++ S)) then (P ++ S) ++ [category]
                      else P ++ S) = P ++ S1) as [S1 ->].
  { repeat case_match; rewrite ?remove_first_app_notin by done;
      rewrite <-?app_assoc; by eexists. }
  repeat case_match; rewrite <-?app_assoc; by eexists.
Qed.

Lemma category_loop_prefix P groups : ∀ S,
  (∀ x, Py.lower x ∉ P) → ∃ S', fold_left category_body groups (P ++ S) = P ++ S'.
Proof.
  induction groups as [|g groups IH]; intros S HP; simpl; [by eexists|].
  destruct (category_body_prefix P S g HP) as [S1 ->]. by apply IH.
Qed.

(** ** C4: the 'Bicycle Network' scenario *)

Lemma bicycle_loop :
  fold_left (tags_body "Bicycle Network" tags_to_delete uppercased_tags articles)
    (map Py.strip bicycle_tags) [] = ["Cycle Net"; "Utah"; "Water-Related"].
Proof. vm_compute. reflexivity. Qed.

Lemma bicycle_prefix_cased x : Py.lower x ∉ ["Cycle Net"; "Utah"; "Water-Related"].
Proof.
  intros H. pose proof (lower_lower x) as Hl.
  repeat (apply elem_of_cons in H as [H|H]);
    [..|by apply elem_of_nil in H]; rewrite H in Hl; vm_compute in Hl; discriminate.
Qed.

(** C4 (as stated) fails: 'Cycle Net' is not dropped.  The substring test is
    case-sensitive and the title holds 'cycle Net', not 'Cycle Net'. *)
Lemma bicycle_network_keeps_cycle_net :
  let item := bicycle_network "a1" (Some []) false None in
  tl_new_tags (tags_check_run item tags_to_delete uppercased_tags articles None)
    ≠ ["Utah"; "Water-Related"] ∧
  Py.contains "Cycle Net" "Bicycle Network" = false ∧
  field "new_tags" (tags_check item tags_to_delete uppercased_tags articles None)
    = Some (PList ["Cycle Net"; "Utah"; "Water-Related"]).
Proof. vm_compute. repeat split; discriminate. Qed.

(** C4 (as amended): for the item titled 'Bicycle Network' with tags
    ['Cycle Net', '.SD', 'utah', 'water-related'], whatever its identifier,
    groups, protection and properties, the reconciler drops '.SD', keeps
    'Cycle Net', keeps the literal 'Utah' and produces 'Water-Related': the new
    tag list is ['Cycle Net', 'Utah', 'Water-Related'] followed by the tags the
    category loop adds, it is reported with fix_tags 'Y', and it is exactly
    those three tags when the group lookup fails or there is no group. *)
Theorem bicycle_network_tags :
  (∀ id sw prot props,
     let item := bicycle_network id sw prot props in
     ∃ category_tags,
       tl_new_tags (tags_check_run item tags_to_delete uppercased_tags articles None)
         = ["Cycle Net"; "Utah"; "Water-Related"] ++ category_tags ∧
       tags_check item tags_to_delete uppercased_tags articles None
         = ODict [("fix_tags", PStr "Y"); ("old_tags", PList bicycle_tags);
                  ("new_tags", PList (["Cycle Net"; "Utah"; "Water-Related"] ++ category_tags))]) ∧
  (∀ id prot props,
     tl_new_tags (tags_check_run (bicycle_network id None prot props)
                    tags_to_delete uppercased_tags articles None)
       = ["Cycle Net"; "Utah"; "Water-Related"] ∧
     tl_new_tags (tags_check_run (bicycle_network id (Some []) prot props)
                    tags_to_delete uppercased_tags articles None)
       = ["Cycle Net"; "Utah"; "Water-Related"]).
Proof.
  split.
  - intros id sw prot props item.
    unfold tags_check, tags_check_run. simpl title. simpl tags. simpl shared_with.
    rewrite bicycle_loop.
    destruct (read_groups sw) as [groups raised].
    destruct (category_loop_prefix ["Cycle Net"; "Utah"; "Water-Related"] groups []
                bicycle_prefix_cased) as [S' HS].
    rewrite app_nil_r in HS. exists S'. simpl tl_new_tags. simpl tl_tags_data.
    rewrite HS. split; [done|].
    rewrite bool_decide_eq_false_2; [done|].
    intros Hp%sorted_eq_perm.
    assert ("Utah" ∈ bicycle_tags) as Hin.
    { rewrite <-Hp. set_solver. }
    revert Hin. unfold bicycle_tags. rewrite !elem_of_cons, elem_of_nil.
    intros [?|[?|[?|[?|[]]]]]; discriminate.
  - intros id prot props. split; vm_compute; reflexivity.
Qed.

(** ** The attribute checkers *)

Lemma group_name_truthy category : truthy (PStr ("Utah SGID " +:+ category)) = true.
Proof. reflexivity. Qed.

Lemma group_name_not_error category : Py.mem ("Utah SGID " +:+ category) ["Error"] = false.
Proof.
  apply mem_false. rewrite list_elem_of_singleton. discriminate.
Qed.

(** C1: the code does not do what the claim says.  For an item of the catalog
    whose group lookup raises, [groups_check] compares the list ['Error'] with
    the string 'Error', which is never equal, falls through to the membership
    test and reports fix_groups 'Y' with old_groups ['Error'] and the desired
    group, instead of the non-fixable row ['N', 'Can't get group', '']. *)
Theorem groups_check_fetch_failure item metatable_dict row category :
  group_titles item.(shared_with) = None →
  metatable_dict !! item.(itemid) = Some row →
  table_category_of row.1 = inr category →
  groups_check item metatable_dict =
    inr (ODict [("fix_groups", PStr "Y"); ("old_groups", PList ["Error"]);
                ("new_group", PStr ("Utah SGID " +:+ category))]).
Proof.
  intros Hsw Hrow Hcat. unfold groups_check, current_groups_of.
  rewrite Hsw, Hrow, Hcat. cbn [py_eq of_opt].
  by rewrite group_name_truthy, group_name_not_error.
Qed.

Lemma groups_check_fetch_failure_witness :
  group_titles counties_item.(shared_with) = None ∧
  groups_check counties_item counties_metatable =
    inr (ODict [("fix_groups", PStr "Y"); ("old_groups", PList ["Error"]);
                ("new_group", PStr "Utah SGID Boundaries")]).
Proof.
  split; [reflexivity|].
  apply (groups_check_fetch_failure counties_item counties_metatable
           ("SGID.BOUNDARIES.Counties", "Utah Counties") "Boundaries");
    vm_compute; reflexivity.
Defined.

(** C6: for an item whose itemid is not a key of the metatable, [title_check]
    and [groups_check] report 'N' with empty old and new values whatever the
    title and the groups (also when the group lookup raises), and
    [folder_check] reports 'N' whatever the folder (its only other outcome is
    the KeyError of an item missing from the folder map); the tag, downloads
    and delete-protection checks do not read the metatable and give for that
    item what they give for any item. *)
Theorem uncataloged_item_no_fix item metatable_dict itemid_and_folder
    tags_to_delete uppercased_tags articles :
  metatable_dict !! item.(itemid) = None →
  title_check item metatable_dict =
    ODict [("fix_title", PStr "N"); ("old_title", PStr ""); ("new_title", PStr "")] ∧
  groups_check item metatable_dict =
    inr (ODict [("fix_groups", PStr "N"); ("old_groups", PStr ""); ("new_group", PStr "")]) ∧
  folder_check item metatable_dict itemid_and_folder =
    match itemid_and_folder !! item.(itemid) with
    | Some _ =>
        inr (ODict [("fix_folder", PStr "N"); ("old_folder", PStr ""); ("new_folder", PStr "")])
    | None => inl KeyError
    end ∧
  (let r := tags_check_run item tags_to_delete uppercased_tags articles None in
   field "fix_tags" (tl_tags_data r) =
     Some (PStr (if bool_decide (Py.sorted (tl_new_tags r) = Py.sorted item.(tags))
                 then "N" else "Y"))) ∧
  downloads_check item =
    match extract_missing item with
    | inl e => inl e
    | inr missing => inr (ODict [("fix_downloads", PStr (if missing then "Y" else "N"))])
    end ∧
  delete_protection_check item =
    ODict [("fix_delete_protection", PStr (if item.(protected) then "N" else "Y"))].
Proof.
  intros Hmd. repeat split.
  - unfold title_check. by rewrite Hmd.
  - unfold groups_check. by rewrite Hmd.
  - unfold folder_check. rewrite Hmd. by destruct (itemid_and_folder !! _).
  - unfold tags_check_run. destruct (read_groups _) as [groups raised]. simpl.
    by case_bool_decide.
  - unfold downloads_check. by destruct (extract_missing item) as [|[]].
  - unfold delete_protection_check. by destruct (protected item).
Qed.

Lemma uncataloged_item_no_fix_witness :
  let item := bicycle_network "a1" (Some [Some "Utah SGID Transportation"]) false None in
  counties_metatable !! item.(itemid) = None ∧
  title_check item counties_metatable =
    ODict [("fix_title", PStr "N"); ("old_title", PStr ""); ("new_title", PStr "")] ∧
  groups_check item counties_metatable =
    inr (ODict [("fix_groups", PStr "N"); ("old_groups", PStr ""); ("new_group", PStr "")]).
Proof.
  intros item.
  destruct (uncataloged_item_no_fix item counties_metatable
              {[ "a1" := Some "Transportation" ]} tags_to_delete uppercased_tags articles)
    as (Ht & Hg & _); [vm_compute; reflexivity|].
  split; [vm_compute; reflexivity|]. split; [exact Ht|exact Hg].
Defined.

(** ** The invariant of the result rows *)

Section three_fields.
Variables flag old new : string.
Hypothesis flag_old : flag ≠ old.
Hypothesis flag_new : flag ≠ new.
Hypothesis old_new : old ≠ new.

Lemma kept_dict_Y vo vn :
  row_invariant_kept flag old new (ODict [(flag, PStr "Y"); (old, vo); (new, vn)]) =
  truthy vo || truthy vn.
Proof.
  unfold row_invariant_kept, needs_fix, no_fix, populated, field. cbn [assoc].
  repeat case_decide; simplify_eq; repeat case_bool_decide; simplify_eq;
    by destruct (truthy vo), (truthy vn).
Qed.

Lemma kept_dict_N :
  row_invariant_kept flag old new
    (ODict [(flag, PStr "N"); (old, PStr ""); (new, PStr "")]) = true.
Proof.
  unfold row_invariant_kept, needs_fix, no_fix, populated, field. cbn [assoc].
  repeat case_decide; simplify_eq; repeat case_bool_decide; simplify_eq; done.
Qed.

Lemma has_new_dict_Y vo vn :
  fix_has_new flag new (ODict [(flag, PStr "Y"); (old, vo); (new, vn)]) = truthy vn.
Proof.
  unfold fix_has_new, needs_fix, populated, field. cbn [assoc].
  repeat case_decide; simplify_eq; repeat case_bool_decide; simplify_eq;
    by destruct (truthy vo), (truthy vn).
Qed.

Lemma has_new_dict_N vo vn :
  fix_has_new flag new (ODict [(flag, PStr "N"); (old, vo); (new, vn)]) = true.
Proof.
  unfold fix_has_new, needs_fix, populated, field. cbn [assoc].
  repeat case_decide; simplify_eq; repeat case_bool_decide; simplify_eq;
    by destruct (truthy vo), (truthy vn).
Qed.
End three_fields.

Local Ltac row_solve :=
  rewrite ?kept_dict_Y, ?kept_dict_N, ?has_new_dict_Y, ?has_new_dict_N by discriminate.

Lemma title_check_kept item metatable_dict :
  row_invariant_kept "fix_title" "old_title" "new_title" (title_check item metatable_dict) &&
  fix_has_new "fix_title" "new_title" (title_check item metatable_dict) = true.
Proof.
  unfold title_check.
  destruct (metatable_dict !! itemid item) as [[sgid name]|]; cbn [snd].
  - destruct (truthy (PStr name)) eqn:Ht; cbn [andb].
    + destruct (py_eq (PStr name) (PStr (title item))); cbn [negb]; row_solve.
      * reflexivity.
      * rewrite Ht. by rewrite orb_true_r.
    + row_solve. reflexivity.
  - cbn [truthy andb]. row_solve. reflexivity.
Qed.

Lemma folder_check_kept item metatable_dict itemid_and_folder :
  holds (λ o, row_invariant_kept "fix_folder" "old_folder" "new_folder" o &&
              fix_has_new "fix_folder" "new_folder" o)
    (folder_check item metatable_dict itemid_and_folder) = true.
Proof.
  unfold folder_check.
  destruct (itemid_and_folder !! itemid item) as [current_folder|]; [|done].
  destruct (metatable_dict !! itemid item) as [[sgid name]|]; cbn [fst].
  - destruct (table_category_of sgid) as [e|category]; [done|].
    destruct (truthy (PStr category)) eqn:Ht; cbn [andb].
    + destruct (py_eq (PStr category) (of_opt current_folder)); cbn [negb holds]; row_solve.
      * reflexivity.
      * rewrite Ht. by rewrite orb_true_r.
    + cbn [holds]. row_solve. reflexivity.
  - cbn [truthy andb holds]. row_solve. reflexivity.
Qed.

Lemma groups_check_kept item metatable_dict :
  holds (λ o, row_invariant_kept "fix_groups" "old_groups" "new_group" o &&
              fix_has_new "fix_groups" "new_group" o)
    (groups_check item metatable_dict) = true.
Proof.
  unfold groups_check.
  destruct (metatable_dict !! itemid item) as [[sgid name]|]; cbn [fst].
  - destruct (table_category_of sgid) as [e|category]; [done|].
    cbn [py_eq of_opt]. rewrite group_name_truthy. cbn [andb].
    destruct (Py.mem _ _); cbn [negb holds]; row_solve.
    + reflexivity.
    + rewrite group_name_truthy. by rewrite orb_true_r.
  - cbn [py_eq of_opt truthy andb holds]. row_solve. reflexivity.
Qed.

Lemma tags_check_kept item tags_to_delete uppercased_tags articles new_title :
  row_invariant_kept "fix_tags" "old_tags" "new_tags"
    (tags_check item tags_to_delete uppercased_tags articles new_title) = true.
Proof.
  unfold tags_check, tags_check_run.
  destruct (read_groups _) as [groups raised]. cbn [tl_tags_data].
  case_bool_decide as Hs; cbn [negb]; row_solve; [reflexivity|].
  cbn [truthy]. destruct (tags item) as [|t ts]; [|reflexivity].
  destruct (fold_left category_body _ _) as [|t ts]; [done|reflexivity].
Qed.

(** C5 (as stated) fails: an item of the catalog that is shared with no
    group needs a fix, and the old value of its row is the empty list. *)
Lemma groups_check_breaks_row_invariant :
  groups_check counties_unshared counties_metatable =
    inr (ODict [("fix_groups", PStr "Y"); ("old_groups", PList []);
                ("new_group", PStr "Utah SGID Boundaries")]) ∧
  holds (row_invariant "fix_groups" "old_groups" "new_group")
    (groups_check counties_unshared counties_metatable) = false.
Proof. vm_compute. split; reflexivity. Qed.

(** C5 (as amended): for every item, each of the title, group, folder and
    tag checkers of checks.py returns a flag 'Y' or 'N'; the flag is 'N'
    exactly when the old and new values are both empty, and 'Y' exactly when
    one of them is populated; with 'Y' the title, group and folder checkers
    always carry the new value, while the old value is the item's current
    one and may be empty; the downloads and delete-protection checkers return
    the flag alone; and the title check inside check_items keeps the old title
    in a row that needs no fix. *)
Theorem checkers_row_invariant item metatable_dict itemid_and_folder
    tags_to_delete uppercased_tags articles new_title :
  row_invariant_kept "fix_title" "old_title" "new_title" (title_check item metatable_dict) &&
    fix_has_new "fix_title" "new_title" (title_check item metatable_dict) = true ∧
  holds (λ o, row_invariant_kept "fix_groups" "old_groups" "new_group" o &&
              fix_has_new "fix_groups" "new_group" o)
    (groups_check item metatable_dict) = true ∧
  holds (λ o, row_invariant_kept "fix_folder" "old_folder" "new_folder" o &&
              fix_has_new "fix_folder" "new_folder" o)
    (folder_check item metatable_dict itemid_and_folder) = true ∧
  row_invariant_kept "fix_tags" "old_tags" "new_tags"
    (tags_check item tags_to_delete uppercased_tags articles new_title) = true ∧
  holds (flag_only "fix_downloads") (downloads_check item) = true ∧
  flag_only "fix_delete_protection" (delete_protection_check item) = true ∧
  title_data_of item (PStr item.(title)) = [PStr "N"; PStr item.(title); PStr ""].
Proof.
  split; [apply title_check_kept|].
  split; [apply groups_check_kept|].
  split; [apply folder_check_kept|].
  split; [apply tags_check_kept|].
  split; [|split].
  - unfold downloads_check. by destruct (extract_missing item) as [|[]].
  - unfold delete_protection_check. by destruct (protected item).
  - unfold title_data_of. cbn [py_eq]. by rewrite bool_decide_eq_true_2.
Qed.

(** ** Group lookups that fail *)

Lemma read_titles_before gs : ∀ groups,
  (read_titles gs groups).1 = groups ++ titles_before gs.
Proof.
  induction gs as [|[t|] gs IH]; intros groups; simpl.
  - by rewrite app_nil_r.
  - by rewrite IH, <-app_assoc.
  - by rewrite app_nil_r.
Qed.

(** C9 (as stated) fails: the side list receives the item's title, not its
    identifier; and the titles read before a failing group are kept, so the
    category tags of those groups are still added. *)
Lemma tags_check_records_title :
  tl_failed_group_items
    (tags_check_run counties_item tags_to_delete uppercased_tags articles None)
    ≠ [counties_item.(itemid)] ∧
  tl_groups (tags_check_run roads_item tags_to_delete uppercased_tags articles None)
    = ["Utah SGID Transportation"] ∧
  tl_new_tags (tags_check_run roads_item tags_to_delete uppercased_tags articles None)
    = ["Transportation"; "SGID"; "AGRC"].
Proof. vm_compute. repeat split. discriminate. Qed.

(** C9 (as amended): whenever the group lookup of [tags_check] raises, the
    item's title is appended to the local list failed_group_items (which the
    function does not return), the groups used for the category tags are the
    titles read before the failure - none when reading the membership itself
    fails - and the function returns its dict of fix_tags, old_tags and
    new_tags as usual. *)
Theorem tags_check_group_failure item tags_to_delete uppercased_tags articles new_title :
  (read_groups item.(shared_with)).2 = true →
  let r := tags_check_run item tags_to_delete uppercased_tags articles new_title in
  tl_failed_group_items r = [item.(title)] ∧
  tl_groups r =
    match item.(shared_with) with
    | Some gs => titles_before gs
    | None => []
    end ∧
  tl_new_tags r =
    fold_left category_body (tl_groups r)
      (fold_left (tags_body (tl_title r) tags_to_delete uppercased_tags articles)
         (map Py.strip item.(tags)) []) ∧
  ∃ flag old new,
    tags_check item tags_to_delete uppercased_tags articles new_title =
      ODict [("fix_tags", PStr flag); ("old_tags", old); ("new_tags", new)].
Proof.
  intros Hfail r. subst r. unfold tags_check, tags_check_run.
  assert ((read_groups (shared_with item)).1 =
          match shared_with item with Some gs => titles_before gs | None => [] end) as Hg.
  { unfold read_groups. destruct (shared_with item) as [gs|]; [|done].
    by rewrite read_titles_before. }
  destruct (read_groups (shared_with item)) as [groups raised].
  simpl in Hfail, Hg. subst raised. cbn [tl_failed_group_items tl_groups tl_new_tags
    tl_title tl_tags_data].
  repeat split; [done|].
  case_bool_decide; cbn [negb]; by eexists _, _, _.
Qed.

Lemma tags_check_group_failure_witness :
  (read_groups roads_item.(shared_with)).2 = true ∧
  tl_failed_group_items
    (tags_check_run roads_item tags_to_delete uppercased_tags articles None)
    = ["Utah Roads"].
Proof.
  split; [reflexivity|].
  apply (tags_check_group_failure roads_item tags_to_delete uppercased_tags articles None).
  reflexivity.
Defined.

(** ** The fix phase *)

Lemma subscript_position {A} (l : list A) (i : nat) :
  subscript l (PInt (Z.of_nat i)) =
  match l !! i with
  | Some x => inr x
  | None => inl IndexError
  end.
Proof.
  unfold subscript.
  assert ((Z.of_nat i <? 0)%Z = false) as -> by (apply Z.ltb_ge; lia).
  assert ((0 <=? Z.of_nat i)%Z = true) as -> by (apply Z.leb_le; lia).
  rewrite Nat2Z.id. cbn [andb].
  destruct (Z.ltb_spec (Z.of_nat i) (Z.of_nat (length l))) as [Hlt|Hge]; [done|].
  rewrite lookup_ge_None_2; [done|lia].
Qed.

Lemma fix_loop_stops feature_service_items report : ∀ log,
  fix_loop feature_service_items log report =
  (log, match report with [] => None | _ => Some TypeError end).
Proof. destruct report as [|[itemid row] rest]; intros log; reflexivity. Qed.

(** C10: [fix_items] subscripts the list feature_service_items with the
    itemid of the row.  The list answers integer keys by position and nothing
    else: with the itemid, a string, the lookup raises TypeError, so it never
    returns an item - in particular not the one whose identifier is that key -
    and [fix_items] stops at the first row without having issued a call. *)
Theorem fix_items_lookup (feature_service_items : list Item) :
  (∀ log itemid row,
     fix_row feature_service_items log itemid row =
     (log, match subscript feature_service_items (PStr itemid) with
           | inl e => Some e
           | inr _ => None
           end)) ∧
  (∀ itemid, subscript feature_service_items (PStr itemid) = inl TypeError) ∧
  (∀ itemid item, subscript feature_service_items (PStr itemid) ≠ inr item) ∧
  (∀ i : nat,
     subscript feature_service_items (PInt (Z.of_nat i)) =
     match feature_service_items !! i with
     | Some item => inr item
     | None => inl IndexError
     end) ∧
  (∀ report, (fix_items feature_service_items report).1 = []).
Proof.
  repeat split; try done.
  - apply subscript_position.
  - intros report. unfold fix_items. case_bool_decide; [|done].
    by rewrite fix_loop_stops.
Qed.

(** ** The check phase *)

(** C2: the code does not do what the claim says.  In [check_items] too the
    list ['Error'] is compared with the string 'Error': for an item whose
    group lookup raises, the groups data is ['Y', 'Error', group] and not the
    non-fixable ['N', 'Can't get group', '']. *)
Theorem check_items_group_failure item group :
  group_titles item.(shared_with) = None →
  py_eq group (PStr "Error") = false →
  groups_data_of item group = [PStr "Y"; PStr "Error"; group].
Proof.
  intros Hsw Hg. unfold groups_data_of, current_groups_of. rewrite Hsw.
  cbn [py_eq py_in existsb]. by rewrite Hg.
Qed.

Lemma check_items_group_failure_witness :
  group_titles counties_item.(shared_with) = None ∧
  groups_data_of counties_item (PStr "Utah SGID Boundaries") =
    [PStr "Y"; PStr "Error"; PStr "Utah SGID Boundaries"].
Proof.
  split; [reflexivity|].
  apply (check_items_group_failure counties_item (PStr "Utah SGID Boundaries"));
    reflexivity.
Defined.

(** ** A second pass of [tags_check] *)

Lemma remove_first_perm x X : x ∈ X → Py.remove_first x X ++ [x] ≡ₚ X.
Proof.
  induction X as [|y X IH]; simpl; [by intros ?%elem_of_nil|].
  intros Hx. case_decide as Hy.
  - subst y. by rewrite Permutation_app_comm.
  - apply elem_of_cons in Hx as [->|Hx]; [done|].
    simpl. by rewrite IH.
Qed.

Lemma elem_of_remove_first x y X : x ∈ X → x ≠ y → x ∈ Py.remove_first y X.
Proof.
  induction X as [|z X IH]; simpl; [done|].
  intros [->|Hx]%elem_of_cons Hne.
  - rewrite decide_False by done. set_solver.
  - case_decide; [done|]. set_solver.
Qed.

(** A tag that is not in lower case is never removed by the category loop. *)
Lemma category_body_keeps x X group :
  x ∈ X → Py.lower x ≠ x → x ∈ category_body X group.
Proof.
  intros Hx Hlow. unfold category_body.
  destruct (Py.contains "Utah SGID" group); [|done].
  set (category := category_of group).
  assert (x ≠ Py.lower category) as Hne.
  { intros ->. by rewrite lower_lower in Hlow. }
  assert (x ∈ (if Py.mem (Py.lower category) X
               then Py.remove_first (Py.lower category) X ++ [category]
               else if negb (Py.mem category X) then X ++ [category] else X)) as H1.
  { repeat case_match; rewrite ?elem_of_app; auto using elem_of_remove_first. }
  revert H1. generalize (if Py.mem (Py.lower category) X
               then Py.remove_first (Py.lower category) X ++ [category]
               else if negb (Py.mem category X) then X ++ [category] else X).
  intros Y HY. repeat case_match; rewrite ?elem_of_app; auto.
Qed.

Lemma category_loop_keeps x groups : ∀ X,
  x ∈ X → Py.lower x ≠ x → x ∈ fold_left category_body groups X.
Proof.
  induction groups as [|g groups IH]; intros X Hx Hlow; simpl; [done|].
  apply IH; [|done]. by apply category_body_keeps.
Qed.

(** A 'Utah SGID' group leaves both 'SGID' and 'AGRC' among the tags. *)
Lemma category_body_marks X group :
  Py.contains "Utah SGID" group = true →
  "SGID" ∈ category_body X group ∧ "AGRC" ∈ category_body X group.
Proof.
  intros Hg. unfold category_body. rewrite Hg.
  generalize (if Py.mem (Py.lower (category_of group)) X
              then Py.remove_first (Py.lower (category_of group)) X ++ [category_of group]
              else if negb (Py.mem (category_of group) X)
                   then X ++ [category_of group] else X).
  intros Y.
  destruct (Py.mem "SGID" Y) eqn:HS; cbn [negb].
  - apply mem_true in HS.
    destruct (Py.mem "AGRC" Y) eqn:HA; cbn [negb].
    + apply mem_true in HA. done.
    + rewrite !elem_of_app, !list_elem_of_singleton. auto.
  - destruct (Py.mem "AGRC" (Y ++ ["SGID"])) eqn:HA; cbn [negb].
    + apply mem_true in HA. split; [|done].
      rewrite elem_of_app, list_elem_of_singleton. auto.
    + rewrite !elem_of_app, !list_elem_of_singleton. auto.
Qed.

Lemma category_loop_marks groups : ∀ X group,
  group ∈ groups → Py.contains "Utah SGID" group = true →
  "SGID" ∈ fold_left category_body groups X ∧
  "AGRC" ∈ fold_left category_body groups X.
Proof.
  induction groups as [|g groups IH]; intros X group Hin Hg; simpl.
  - by apply elem_of_nil in Hin.
  - apply elem_of_cons in Hin as [<-|Hin]; [|by eapply IH].
    destruct (category_body_marks X group Hg) as [HS HA].
    split; by apply category_loop_keeps.
Qed.

(** On settled tags the category loop only reorders. *)
Lemma category_body_settled T X group :
  X ≡ₚ T → settled_category T group = true →
  (Py.contains "Utah SGID" group = true → "SGID" ∈ T ∧ "AGRC" ∈ T) →
  category_body X group ≡ₚ T.
Proof.
  intros HX Hset Hmarks. unfold category_body, settled_category in *.
  destruct (Py.contains "Utah SGID" group); [|done].
  destruct Hmarks as [HS HA]; [done|].
  cbn [negb orb] in Hset. apply andb_true_iff in Hset as [Hc Hlow].
  apply mem_true in Hc.
  set (category := category_of group) in *.
  assert ((if Py.mem (Py.lower category) X
           then Py.remove_first (Py.lower category) X ++ [category]
           else if negb (Py.mem category X) then X ++ [category] else X) ≡ₚ T) as H1.
  { destruct (Py.mem (Py.lower category) X) eqn:Hl.
    - apply mem_true in Hl.
      apply orb_true_iff in Hlow as [Hlow|Hlow].
      + apply negb_true_iff, mem_false in Hlow. rewrite <-HX in Hlow. done.
      + apply bool_decide_eq_true in Hlow. rewrite Hlow in *.
        by rewrite remove_first_perm.
    - rewrite <-HX in Hc. apply mem_true in Hc. by rewrite Hc. }
  revert H1. generalize (if Py.mem (Py.lower category) X
           then Py.remove_first (Py.lower category) X ++ [category]
           else if negb (Py.mem category X) then X ++ [category] else X).
  intros Y HY.
  assert (Py.mem "SGID" Y = true) as -> by (apply mem_true; by rewrite HY).
  cbn [negb].
  assert (Py.mem "AGRC" Y = true) as -> by (apply mem_true; by rewrite HY).
  done.
Qed.

Lemma category_loop_settled T groups : ∀ X,
  X ≡ₚ T → forallb (settled_category T) groups = true →
  (∀ group, group ∈ groups → Py.contains "Utah SGID" group = true →
            "SGID" ∈ T ∧ "AGRC" ∈ T) →
  fold_left category_body groups X ≡ₚ T.
Proof.
  induction groups as [|g groups IH]; intros X HX Hset Hmarks; simpl; [done|].
  simpl in Hset. apply andb_true_iff in Hset as [Hg Hset].
  apply IH; [|done|].
  - apply category_body_settled; [done..|]. apply Hmarks, elem_of_cons. by left.
  - intros group Hin. apply Hmarks, elem_of_cons. by right.
Qed.

(** A settled tag is appended as it is, provided it is not there already
    (which matters for every tag but 'Utah'). *)
Lemma tags_body_settled title tags_to_delete uppercased_tags articles X t :
  settled_tag title tags_to_delete uppercased_tags articles t = true →
  (t ≠ "Utah" → t ∉ X) →
  tags_body title tags_to_delete uppercased_tags articles X t = X ++ [t].
Proof.
  unfold settled_tag. intros [_ Hkept%bool_decide_eq_true]%andb_true_iff Hfresh.
  revert Hkept. unfold tags_body.
  destruct (bool_decide (Py.lower t = "utah") && negb (Py.mem t (Py.split title)))
    eqn:Hutah.
  { intros [= <-]. done. }
  destruct (Py.mem (Py.lower t) tags_to_delete); [discriminate|].
  destruct (Py.mem t (Py.split title) || _) eqn:Htitle; [discriminate|].
  cbn [Py.mem]. rewrite (proj2 (mem_false _ [])) by apply not_elem_of_nil.
  cbn [negb]. intros [= Hcased]. rewrite Hcased.
  rewrite (proj2 (mem_false t X)); [done|].
  apply Hfresh. intros ->.
  apply orb_false_iff in Htitle as [Hword _]. rewrite Hword in Hutah.
  vm_compute in Hutah. discriminate.
Qed.

Lemma tags_loop_settled title tags_to_delete uppercased_tags articles T : ∀ X,
  forallb (settled_tag title tags_to_delete uppercased_tags articles) T = true →
  once_each T = true →
  (∀ t, t ∈ T → t ≠ "Utah" → t ∉ X) →
  fold_left (tags_body title tags_to_delete uppercased_tags articles) T X = X ++ T.
Proof.
  induction T as [|t T IH]; intros X Hset Honce Hfresh; simpl.
  - by rewrite app_nil_r.
  - simpl in Hset, Honce.
    apply andb_true_iff in Hset as [Ht Hset].
    apply andb_true_iff in Honce as [Hone Honce].
    rewrite tags_body_settled; [|done|intros ?; apply Hfresh; [set_solver|done]].
    rewrite IH, <-app_assoc; [done..|].
    intros t' Hin Hne. rewrite not_elem_of_app, list_elem_of_singleton. split.
    + apply Hfresh; [set_solver|done].
    + intros ->. apply orb_true_iff in Hone as [Hone|Hone].
      * apply bool_decide_eq_true in Hone. done.
      * apply negb_true_iff, mem_false in Hone. done.
Qed.

Lemma settled_strip title tags_to_delete uppercased_tags articles T :
  forallb (settled_tag title tags_to_delete uppercased_tags articles) T = true →
  map Py.strip T = T.
Proof.
  induction T as [|t T IH]; simpl; [done|].
  intros [[Hs%bool_decide_eq_true _]%andb_true_iff HT]%andb_true_iff.
  by rewrite Hs, IH.
Qed.

Lemma retag_no_fix item old new :
  retag item (ODict [("fix_tags", PStr "N"); ("old_tags", old); ("new_tags", new)]) = item.
Proof. reflexivity. Qed.

Lemma retag_fix item old new_tags :
  retag item (ODict [("fix_tags", PStr "Y"); ("old_tags", old);
                     ("new_tags", PList new_tags)]) =
  {| itemid := item.(itemid); title := item.(title); tags := new_tags;
     shared_with := item.(shared_with); protected := item.(protected);
     properties := item.(properties) |}.
Proof. reflexivity. Qed.

(** C3 (as stated) fails: with the title 'Utah Roads' the tag 'utah' becomes
    'Utah' on the first pass, and the second pass drops 'Utah' as a word of
    the title, so it reports a change again. *)
Lemma tags_check_second_pass_changes :
  let first := tags_check utah_roads tags_to_delete uppercased_tags articles None in
  first = ODict [("fix_tags", PStr "Y"); ("old_tags", PList ["utah"]);
                 ("new_tags", PList ["Utah"])] ∧
  tags_check (retag utah_roads first) tags_to_delete uppercased_tags articles None
    = ODict [("fix_tags", PStr "Y"); ("old_tags", PList ["Utah"]);
             ("new_tags", PList [])].
Proof. vm_compute. split; reflexivity. Qed.

(** C3 (as amended): a second run of [tags_check] on its own output, with the
    same title, lists and groups, reports fix_tags 'N' whenever that output is
    settled: each of its tags is trimmed and kept as it is by the per-tag
    rules (not deleted, not found in the title, not re-cased), no tag other
    than 'Utah' occurs twice, and for each group title containing 'Utah SGID'
    the category is among the tags while its lower-case form is not (unless
    the category is itself in lower case). *)
Theorem tags_check_round_trip item tags_to_delete uppercased_tags articles new_title :
  let first := tags_check_run item tags_to_delete uppercased_tags articles new_title in
  settled (tl_title first) tags_to_delete uppercased_tags articles
    (tl_groups first) (tl_new_tags first) = true →
  field "fix_tags"
    (tags_check (retag item (tl_tags_data first))
       tags_to_delete uppercased_tags articles new_title) = Some (PStr "N").
Proof.
  intros first. subst first. unfold tags_check, tags_check_run.
  destruct (read_groups (shared_with item)) as [groups raised] eqn:Hrg.
  cbn [tl_title tl_groups tl_new_tags tl_tags_data].
  set (ttl := match new_title with
              | Some t => if truthy (PStr t) then t else title item
              | None => title item
              end).
  set (L := fold_left (tags_body ttl tags_to_delete uppercased_tags articles)
              (map Py.strip (tags item)) []).
  set (T := fold_left category_body groups L).
  intros Hset. case_bool_decide as Hsame; cbn [negb].
  - (* the first pass asks for no fix: the item is as it was *)
    rewrite retag_no_fix, Hrg. fold ttl L T.
    cbn [tl_tags_data]. rewrite bool_decide_eq_true_2 by done. done.
  - (* the first pass asks for a fix: the tags are now [T] *)
    rewrite retag_fix. cbn [title tags shared_with]. rewrite Hrg. fold ttl.
    cbn [tl_tags_data].
    unfold settled in Hset.
    apply andb_true_iff in Hset as [[Htags Honce]%andb_true_iff Hcats].
    rewrite (settled_strip _ _ _ _ _ Htags).
    rewrite tags_loop_settled; [|done..|intros ???; apply not_elem_of_nil].
    rewrite app_nil_l.
    rewrite bool_decide_eq_true_2; [done|].
    apply sorted_eq_perm, category_loop_settled; [done..|].
    intros group Hin Hg. by apply category_loop_marks with group.
Qed.

Lemma tags_check_round_trip_witness :
  let item := bicycle_network "a1" (Some [Some "Utah SGID Transportation"]) false None in
  let first := tags_check_run item tags_to_delete uppercased_tags articles None in
  tl_new_tags first =
    ["Cycle Net"; "Utah"; "Water-Related"; "Transportation"; "SGID"; "AGRC"] ∧
  settled (tl_title first) tags_to_delete uppercased_tags articles
    (tl_groups first) (tl_new_tags first) = true ∧
  field "fix_tags"
    (tags_check (retag item (tl_tags_data first))
       tags_to_delete uppercased_tags articles None) = Some (PStr "N").
Proof.
  intros item first. split; [vm_compute; reflexivity|].
  split; [vm_compute; reflexivity|].
  apply (tags_check_round_trip item tags_to_delete uppercased_tags articles None).
  vm_compute. reflexivity.
Defined.

(** ** [check_items] on items outside the catalog and on failing lookups *)

Section check_phase_facts.
Variable check_tags : Item → list string → list string → list string → list string.
Variable get_category_and_name :
  Item → gmap string (string * string) → pyval * pyval * pyval.
Variable metatable_dict : gmap string (string * string).
Variable itemid_and_folder : gmap string (option string).

Abbreviation check_item' :=
  (check_item check_tags get_category_and_name metatable_dict itemid_and_folder).

Lemma loc_set_length report itemid cols data :
  length (loc_set report itemid cols data) = length report.
Proof. unfold loc_set. apply length_map. Qed.

(** An item the helper calls 'Not SGID' gets no title, group or folder
    cell: only the three remaining checks write to its row. *)
Lemma check_item_not_sgid report item group folder :
  get_category_and_name item metatable_dict = (PStr "Not SGID", group, folder) →
  check_item' report item =
    (missing ← extract_missing item;
     let new_tags := check_tags item tags_to_delete uppercased_tags articles in
     let tags_data :=
       if negb (bool_decide (Py.sorted new_tags = Py.sorted item.(tags)))
       then [PStr "Y"; PStr (Py.join "; " item.(tags)); PStr (Py.join "; " new_tags)]
       else [PStr "N"; PStr ""; PStr ""] in
     inr (loc_set
            (loc_set
               (loc_set report item.(itemid) ["fix_tags"; "old_tags"; "new_tags"] tags_data)
               item.(itemid) ["fix_downloads"]
               (if (missing : bool) then [PStr "Y"] else [PStr "N"]))
            item.(itemid) ["fix_delete_protection"]
            (if negb item.(protected) then [PStr "Y"] else [PStr "N"]))).
Proof.
  intros Hcat. unfold check_item. rewrite Hcat. cbn [py_eq].
  rewrite (bool_decide_eq_true_2 ("Not SGID" = "Not SGID")) by done. reflexivity.
Qed.

(** With both lookups failing, the body of the loop still returns a
    report, of the same number of rows, for an item of the folder map. *)
Lemma check_item_lookup_failures report item :
  group_titles item.(shared_with) = None →
  item.(properties) = None →
  is_Some (itemid_and_folder !! item.(itemid)) →
  ∃ report', check_item' report item = inr report' ∧ length report' = length report.
Proof.
  intros _ Hprops [current_folder Hfolder]. unfold check_item.
  destruct (get_category_and_name item metatable_dict) as [[ttl group] folder].
  unfold extract_missing. rewrite Hprops, Hfolder.
  destruct (negb (py_eq ttl (PStr "Not SGID"))); simpl;
    eexists; (split; [reflexivity|]); by rewrite !loc_set_length.
Qed.
End check_phase_facts.

(** As the two files stand, the first call of the loop of [check_items]
    finds no such function in checks.py. *)
Example check_items_helpers_absent :
  checks_getattr "check_tags" = inl AttributeError ∧
  checks_getattr "get_category_and_name" = inl AttributeError ∧
  checks_getattr "tags_check" = inr "tags_check".
Proof. vm_compute. done. Qed.

(** The report of the check phase for the catalogued item whose group lookup
    raises, with the stand-in helpers: the groups flag went to 'fix_tags' and
    was overwritten, 'fix_groups' was never assigned, and the row names the
    desired group next to the old value 'Error'. *)
Example check_items_counties_row :
  ∃ row,
    check_items example_check_tags example_category_and_name counties_metatable
      {[ counties_item.(itemid) := None ]} [counties_item]
      = inr [(counties_item.(itemid), row)] ∧
    row !! "fix_groups" = None ∧
    row !! "old_groups" = Some (PStr "Error") ∧
    row !! "new_group" = Some (PStr "Utah SGID Boundaries") ∧
    row !! "fix_tags" = Some (PStr "N").
Proof. eexists. split; [vm_compute; reflexivity|]. vm_compute. done. Qed.

(** * Further properties of the code *)

(** ** [tag_case]: periods and casing of the input *)

Lemma upper_lower_char : ∀ c, Py.upper_char (Py.lower_char c) = Py.upper_char c.
Proof. by_chars. Qed.

Lemma upper_lower s : Py.upper (Py.lower s) = Py.upper s.
Proof. induction s as [|c s IH]; simpl; [done|]. by rewrite upper_lower_char, IH. Qed.

Lemma title_go_lower b s : Py.title_go b (Py.lower s) = Py.title_go b s.
Proof.
  revert b; induction s as [|c s IH]; intros b; simpl; [done|].
  rewrite is_cased_lower_char, IH.
  by destruct b; rewrite ?lower_lower_char, ?upper_lower_char.
Qed.

Lemma lower_app s1 s2 : Py.lower (s1 +:+ s2) = Py.lower s1 +:+ Py.lower s2.
Proof. induction s1 as [|c s1 IH]; [done|]. rewrite sapp_cons. simpl. by rewrite IH. Qed.

Lemma remove_char_lower s :
  Py.remove_char "." (Py.lower s) = Py.lower (Py.remove_char "." s).
Proof.
  induction s as [|c s IH]; simpl; [done|].
  rewrite is_dot_lower_char. destruct (Ascii.eqb c "."); simpl; by rewrite IH.
Qed.

Lemma flush_lower cur : Py.flush (Py.lower cur) = map Py.lower (Py.flush cur).
Proof. by destruct cur. Qed.

Lemma split_go_lower s : ∀ cur,
  Py.split_go (Py.lower cur) (Py.lower s) = map Py.lower (Py.split_go cur s).
Proof.
  induction s as [|c s IH]; intros cur; simpl.
  - apply flush_lower.
  - rewrite is_space_lower_char. destruct (Py.is_space c).
    + rewrite map_app, flush_lower. f_equal. apply (IH "").
    + rewrite <-IH. by rewrite lower_app.
Qed.

Lemma normalize_word_of_lower uppercased articles w :
  normalize_word uppercased articles (Py.lower w) = normalize_word uppercased articles w.
Proof.
  unfold normalize_word, Py.title.
  by rewrite remove_char_lower, lower_lower, upper_lower, title_go_lower.
Qed.

Lemma normalize_of_lower tag uppercased articles :
  normalize (Py.lower tag) uppercased articles = normalize tag uppercased articles.
Proof.
  unfold normalize, Py.split.
  change (Py.split_go "" (Py.lower tag)) with (Py.split_go (Py.lower "") (Py.lower tag)).
  rewrite (split_go_lower tag "").
  f_equal. rewrite <-list_fmap_compose. apply list_fmap_ext.
  intros _ w _. apply normalize_word_of_lower.
Qed.

Lemma join_all_chars p l :
  p " "%char = true → Forall (λ w, all_chars p w = true) l →
  all_chars p (Py.join " " l) = true.
Proof.
  intros Hp. induction 1 as [|w l Hw Hl IH]; [done|].
  destruct l as [|w' l]; [done|].
  change (Py.join " " (w :: w' :: l)) with (w +:+ " " +:+ Py.join " " (w' :: l)).
  rewrite !all_chars_app, Hw, IH. simpl. by rewrite Hp.
Qed.

(** X1: the result of [tag_case] holds no period, whatever the tag and the
    two word lists. *)
Theorem tag_case_no_period tag uppercased articles :
  Py.contains "." (tag_case tag uppercased articles) = false ∧
  no_dot (tag_case tag uppercased articles) = true.
Proof.
  assert (no_dot (tag_case tag uppercased articles) = true) as Hnd.
  { rewrite tag_case_normalize. unfold normalize, no_dot.
    apply join_all_chars; [done|].
    apply Forall_fmap, Forall_forall. intros w _. apply normalize_word_no_dot. }
  split; [|done]. revert Hnd. unfold no_dot.
  generalize (tag_case tag uppercased articles). intros s.
  induction s as [|c s IH]; [done|].
  cbn [all_chars Py.contains Py.starts_with].
  intros [Hc Hs]%andb_true_iff. apply negb_true_iff in Hc.
  rewrite Ascii.eqb_sym in Hc. rewrite Hc. by apply IH.
Qed.



(** ** [tags_check]: what the loop over the existing tags keeps *)

Lemma tags_body_eq title tags_to_delete uppercased_tags articles X t :
  tags_body title tags_to_delete uppercased_tags articles X t =
  if utah_tag title t then X ++ ["Utah"]
  else if dropped_tag title tags_to_delete t then X
  else if Py.mem (tag_case t uppercased_tags articles) X then X
  else X ++ [tag_case t uppercased_tags articles].
Proof.
  unfold tags_body, utah_tag, dropped_tag.
  destruct (_ && _); [done|].
  destruct (Py.mem (Py.lower t) tags_to_delete); [done|]. cbn [orb].
  destruct (_ || _); [done|]. by destruct (Py.mem _ X).
Qed.

Lemma once_each_snoc X t :
  once_each X = true → t = "Utah" ∨ t ∉ X → once_each (X ++ [t]) = true.
Proof.
  induction X as [|x X IH]; intros HX Ht; simpl.
  - by rewrite orb_true_r.
  - simpl in HX. apply andb_true_iff in HX as [Hx HX].
    rewrite IH; [|done|]; last first.
    { destruct Ht as [Ht|Ht]; [by left|right]. by apply not_elem_of_cons in Ht as [??]. }
    rewrite andb_true_r. apply orb_true_iff in Hx as [Hx|Hx]; [by rewrite Hx|].
    destruct (decide (x = t)) as [->|Hne].
    + destruct Ht as [->|Ht]; [done|]. exfalso. apply Ht. by left.
    + apply negb_true_iff, mem_false in Hx. apply orb_true_iff. right.
      apply negb_true_iff, mem_false.
      rewrite not_elem_of_app, list_elem_of_singleton. done.
Qed.

Lemma tags_loop_once_each title tags_to_delete uppercased_tags articles ts : ∀ X,
  once_each X = true →
  once_each (fold_left (tags_body title tags_to_delete uppercased_tags articles) ts X) = true.
Proof.
  induction ts as [|t ts IH]; intros X HX; simpl; [done|].
  apply IH. rewrite tags_body_eq.
  destruct (utah_tag title t); [apply once_each_snoc; auto|].
  destruct (dropped_tag _ _ _); [done|].
  destruct (Py.mem _ X) eqn:Hm; [done|].
  apply once_each_snoc; [done|]. right. by apply mem_false.
Qed.

Lemma category_loop_no_sgid groups : ∀ X,
  no_sgid_group groups = true → fold_left category_body groups X = X.
Proof.
  induction groups as [|g groups IH]; intros X Hg; simpl; [done|].
  simpl in Hg. apply andb_true_iff in Hg as [Hg Hgs].
  apply negb_true_iff in Hg. unfold category_body at 2. rewrite Hg. by apply IH.
Qed.

(** X3: for an item none of whose readable group titles holds 'Utah SGID',
    the new tags of [tags_check] are the tags its loop over the existing
    tags built, and no tag other than 'Utah' occurs twice among them. *)
Theorem tags_check_no_duplicates item tags_to_delete uppercased_tags articles new_title :
  let r := tags_check_run item tags_to_delete uppercased_tags articles new_title in
  no_sgid_group (tl_groups r) = true →
  tl_new_tags r =
    fold_left (tags_body (tl_title r) tags_to_delete uppercased_tags articles)
      (map Py.strip item.(tags)) [] ∧
  once_each (tl_new_tags r) = true.
Proof.
  intros r. subst r. unfold tags_check_run.
  destruct (read_groups (shared_with item)) as [groups raised].
  cbn [tl_groups tl_new_tags tl_title]. intros Hg.
  rewrite category_loop_no_sgid by done. split; [done|].
  by apply tags_loop_once_each.
Qed.

Lemma tags_check_no_duplicates_witness :
  let item := {| itemid := "a1"; title := "Trails";
                 tags := ["plss"; "PLSS"; " Plss "; "utah"; "UTAH"];
                 shared_with := Some [Some "Open Data"]; protected := true;
                 properties := None |} in
  let r := tags_check_run item tags_to_delete uppercased_tags articles None in
  no_sgid_group (tl_groups r) = true ∧
  tl_new_tags r = ["PLSS"; "Utah"; "Utah"] ∧
  once_each (tl_new_tags r) = true.
Proof.
  intros item r. split; [reflexivity|]. split; [reflexivity|].
  apply (tags_check_no_duplicates item tags_to_delete uppercased_tags articles None).
  reflexivity.
Defined.

(** X4: [tags_check] reports fix_tags 'N' exactly when the new tags are a
    reordering of the item's tags, each tag counted as often as it occurs:
    the comparison is between the two sorted lists. *)
Theorem tags_check_no_fix_iff_permutation item tags_to_delete uppercased_tags articles
    new_title :
  let r := tags_check_run item tags_to_delete uppercased_tags articles new_title in
  (field "fix_tags" (tags_check item tags_to_delete uppercased_tags articles new_title)
     = Some (PStr "N") ↔ tl_new_tags r ≡ₚ item.(tags)) ∧
  (field "fix_tags" (tags_check item tags_to_delete uppercased_tags articles new_title)
     = Some (PStr "Y") ↔ ¬ tl_new_tags r ≡ₚ item.(tags)).
Proof.
  intros r. subst r. unfold tags_check, tags_check_run.
  destruct (read_groups (shared_with item)) as [groups raised].
  cbn [tl_new_tags tl_tags_data].
  case_bool_decide as Hs; cbn [negb field assoc].
  - apply sorted_eq_perm in Hs. split; split; done.
  - rewrite sorted_eq_perm in Hs. split; split; done.
Qed.

Lemma fold_left_Forall {A B} (Q : A → Prop) (f : list A → B → list A) ts : ∀ X,
  (∀ X t, t ∈ ts → Forall Q X → Forall Q (f X t)) →
  Forall Q X → Forall Q (fold_left f ts X).
Proof.
  induction ts as [|t ts IH]; intros X Hf HX; simpl; [done|].
  apply IH.
  - intros X' t' Hin. apply Hf. by right.
  - apply Hf; [by left|done].
Qed.

Lemma Forall_remove_first (Q : string → Prop) y X :
  Forall Q X → Forall Q (Py.remove_first y X).
Proof.
  induction 1 as [|x X Hx HX IH]; simpl; [constructor|].
  case_decide; [done|]. by constructor.
Qed.

Lemma category_body_sound (Q : string → Prop) X group :
  Forall Q X →
  (Py.contains "Utah SGID" group = true → Q (category_of group) ∧ Q "SGID" ∧ Q "AGRC") →
  Forall Q (category_body X group).
Proof.
  intros HX HQ. unfold category_body.
  destruct (Py.contains "Utah SGID" group); [|done].
  destruct HQ as (Hc & HS & HA); [done|].
  assert (Forall Q (if Py.mem (Py.lower (category_of group)) X
                    then Py.remove_first (Py.lower (category_of group)) X ++ [category_of group]
                    else if negb (Py.mem (category_of group) X)
                         then X ++ [category_of group] else X)) as H1.
  { repeat case_match; rewrite ?Forall_app, ?Forall_singleton;
      auto using Forall_remove_first. }
  revert H1. generalize (if Py.mem (Py.lower (category_of group)) X
                    then Py.remove_first (Py.lower (category_of group)) X ++ [category_of group]
                    else if negb (Py.mem (category_of group) X)
                         then X ++ [category_of group] else X).
  intros Y HY. repeat case_match; rewrite ?Forall_app, ?Forall_singleton; auto.
Qed.

(** X5: [tags_check] invents no tag.  Each new tag is 'Utah', 'SGID', 'AGRC',
    the category of a group whose title holds 'Utah SGID', or the [tag_case]
    of a trimmed tag of the item that is neither on the delete list nor found
    in the title. *)
Theorem tags_check_sound item tags_to_delete uppercased_tags articles new_title :
  let r := tags_check_run item tags_to_delete uppercased_tags articles new_title in
  Forall (λ x,
            x = "Utah" ∨ x = "SGID" ∨ x = "AGRC" ∨
            (∃ group, group ∈ tl_groups r ∧ Py.contains "Utah SGID" group = true ∧
                      x = category_of group) ∨
            (∃ t, t ∈ item.(tags) ∧
                  dropped_tag (tl_title r) tags_to_delete (Py.strip t) = false ∧
                  x = tag_case (Py.strip t) uppercased_tags articles))
    (tl_new_tags r).
Proof.
  intros r. subst r. unfold tags_check_run.
  destruct (read_groups (shared_with item)) as [groups raised].
  cbn [tl_groups tl_new_tags tl_title].
  apply fold_left_Forall.
  - intros X group Hin HX. apply category_body_sound; [done|].
    intros Hg. split; [|by auto]. right; right; right; left. by exists group.
  - apply fold_left_Forall; [|constructor].
    intros X t [t0 [-> Hin]]%list_elem_of_fmap HX. rewrite tags_body_eq.
    destruct (utah_tag _ _).
    { rewrite Forall_app, Forall_singleton. auto. }
    destruct (dropped_tag _ _ _) eqn:Hd; [done|].
    destruct (Py.mem _ X); [done|].
    rewrite Forall_app, Forall_singleton. split; [done|].
    do 4 right. by exists t0.
Qed.

Lemma tags_body_mono title tags_to_delete uppercased_tags articles X t x :
  x ∈ X → x ∈ tags_body title tags_to_delete uppercased_tags articles X t.
Proof.
  intros Hx. rewrite tags_body_eq.
  repeat case_match; rewrite ?elem_of_app; auto.
Qed.

Lemma tags_loop_mono title tags_to_delete uppercased_tags articles ts x : ∀ X,
  x ∈ X → x ∈ fold_left (tags_body title tags_to_delete uppercased_tags articles) ts X.
Proof.
  induction ts as [|t ts IH]; intros X Hx; simpl; [done|].
  by apply IH, tags_body_mono.
Qed.

Lemma tags_loop_adds title tags_to_delete uppercased_tags articles ts t : ∀ X,
  t ∈ ts →
  (if utah_tag title t then "Utah"
   else tag_case t uppercased_tags articles) ∈
    fold_left (tags_body title tags_to_delete uppercased_tags articles) ts X ∨
  (utah_tag title t = false ∧ dropped_tag title tags_to_delete t = true).
Proof.
  induction ts as [|t' ts IH]; intros X Hin; simpl.
  - by apply elem_of_nil in Hin.
  - apply elem_of_cons in Hin as [<-|Hin]; [|by apply IH].
    destruct (utah_tag title t) eqn:Hu.
    + left. apply tags_loop_mono. rewrite tags_body_eq, Hu.
      rewrite elem_of_app, list_elem_of_singleton. auto.
    + destruct (dropped_tag title tags_to_delete t) eqn:Hd; [by right|left].
      apply tags_loop_mono. rewrite tags_body_eq, Hu, Hd.
      destruct (Py.mem _ X) eqn:Hm; [by apply mem_true|].
      rewrite elem_of_app, list_elem_of_singleton. auto.
Qed.

(** X6: a tag of the item that reads 'utah' in some casing once trimmed, and
    is not itself a word of the title, leaves the tag 'Utah' among the new
    tags, whatever the other tags and the groups. *)
Theorem tags_check_keeps_utah item tags_to_delete uppercased_tags articles new_title t :
  let r := tags_check_run item tags_to_delete uppercased_tags articles new_title in
  t ∈ item.(tags) →
  utah_tag (tl_title r) (Py.strip t) = true →
  "Utah" ∈ tl_new_tags r.
Proof.
  intros r. subst r. unfold tags_check_run.
  destruct (read_groups (shared_with item)) as [groups raised].
  cbn [tl_new_tags tl_title].
  set (ttl := match new_title with Some _ => _ | None => _ end). intros Hin Hu.
  apply category_loop_keeps; [|by vm_compute].
  destruct (tags_loop_adds ttl tags_to_delete uppercased_tags articles
              (map Py.strip (tags item)) (Py.strip t) []
              (list_elem_of_fmap_2 _ _ _ Hin)) as [H|[H _]].
  - by rewrite Hu in H.
  - by rewrite H in Hu.
Qed.

Lemma tags_check_keeps_utah_witness :
  let item := {| itemid := "a1"; title := "Parcels of utah county";
                 tags := [" UTAH "; "parcels"];
                 shared_with := Some [Some "Utah SGID Cadastre"]; protected := true;
                 properties := None |} in
  " UTAH " ∈ item.(tags) ∧
  "Utah" ∈ tl_new_tags (tags_check_run item tags_to_delete uppercased_tags articles None).
Proof.
  intros item. split; [by left|].
  apply (tags_check_keeps_utah item tags_to_delete uppercased_tags articles None " UTAH ").
  - by left.
  - reflexivity.
Defined.

(** X7: a tag of the item that is none of the special cases - not 'utah',
    not on the delete list, not found in the title - leaves its [tag_case]
    form among the new tags, unless that form is in lower case (the category
    loop may replace a lower-case tag). *)
Theorem tags_check_keeps_cased item tags_to_delete uppercased_tags articles new_title t :
  let r := tags_check_run item tags_to_delete uppercased_tags articles new_title in
  let cased_tag := tag_case (Py.strip t) uppercased_tags articles in
  t ∈ item.(tags) →
  utah_tag (tl_title r) (Py.strip t) = false →
  dropped_tag (tl_title r) tags_to_delete (Py.strip t) = false →
  Py.lower cased_tag ≠ cased_tag →
  cased_tag ∈ tl_new_tags r.
Proof.
  intros r cased_tag. subst r cased_tag. unfold tags_check_run.
  destruct (read_groups (shared_with item)) as [groups raised].
  cbn [tl_new_tags tl_title].
  set (ttl := match new_title with Some _ => _ | None => _ end). intros Hin Hu Hd Hlow.
  apply category_loop_keeps; [|done].
  destruct (tags_loop_adds ttl tags_to_delete uppercased_tags articles
              (map Py.strip (tags item)) (Py.strip t) []
              (list_elem_of_fmap_2 _ _ _ Hin)) as [H|[_ H]].
  - by rewrite Hu in H.
  - by rewrite H in Hd.
Qed.

Lemma tags_check_keeps_cased_witness :
  let item := {| itemid := "a1"; title := "Parcels of utah county";
                 tags := [" UTAH "; "land ownership"];
                 shared_with := Some [Some "Utah SGID Cadastre"]; protected := true;
                 properties := None |} in
  "land ownership" ∈ item.(tags) ∧
  "Land Ownership" ∈
    tl_new_tags (tags_check_run item tags_to_delete uppercased_tags articles None).
Proof.
  intros item. split; [right; by left|].
  apply (tags_check_keeps_cased item tags_to_delete uppercased_tags articles None
           "land ownership").
  - right. by left.
  - reflexivity.
  - reflexivity.
  - vm_compute. discriminate.
Defined.

(** ** [tags_check]: the tags of a 'Utah SGID' group *)

Lemma category_body_adds X group :
  Py.contains "Utah SGID" group = true → category_of group ∈ category_body X group.
Proof.
  intros Hg. unfold category_body. rewrite Hg.
  assert (category_of group ∈
          (if Py.mem (Py.lower (category_of group)) X
           then Py.remove_first (Py.lower (category_of group)) X ++ [category_of group]
           else if negb (Py.mem (category_of group) X)
                then X ++ [category_of group] else X)) as H1.
  { destruct (Py.mem (Py.lower _) X).
    - rewrite elem_of_app, list_elem_of_singleton. auto.
    - destruct (Py.mem (category_of group) X) eqn:Hm; cbn [negb].
      + by apply mem_true.
      + rewrite elem_of_app, list_elem_of_singleton. auto. }
  revert H1. generalize (if Py.mem (Py.lower (category_of group)) X
           then Py.remove_first (Py.lower (category_of group)) X ++ [category_of group]
           else if negb (Py.mem (category_of group) X)
                then X ++ [category_of group] else X).
  intros Y HY. repeat case_match; rewrite ?elem_of_app; auto.
Qed.

Lemma category_loop_adds groups group : ∀ X,
  group ∈ groups → Py.contains "Utah SGID" group = true →
  Py.lower (category_of group) ≠ category_of group →
  category_of group ∈ fold_left category_body groups X.
Proof.
  induction groups as [|g groups IH]; intros X Hin Hg Hlow; simpl.
  - by apply elem_of_nil in Hin.
  - apply elem_of_cons in Hin as [<-|Hin]; [|by apply IH].
    apply category_loop_keeps; [|done]. by apply category_body_adds.
Qed.

(** X8: when the title of a group that could be read holds 'Utah SGID', the
    new tags of [tags_check] hold 'SGID' and 'AGRC', and they hold the
    category of that group unless the category is in lower case. *)
Theorem tags_check_sgid_tags item tags_to_delete uppercased_tags articles new_title group :
  let r := tags_check_run item tags_to_delete uppercased_tags articles new_title in
  group ∈ tl_groups r →
  Py.contains "Utah SGID" group = true →
  "SGID" ∈ tl_new_tags r ∧ "AGRC" ∈ tl_new_tags r ∧
  (Py.lower (category_of group) = category_of group ∨
   category_of group ∈ tl_new_tags r).
Proof.
  intros r. subst r. unfold tags_check_run.
  destruct (read_groups (shared_with item)) as [groups raised].
  cbn [tl_groups tl_new_tags]. intros Hin Hg.
  destruct (category_loop_marks groups
              (fold_left (tags_body
                 match new_title with
                 | Some t => if truthy (PStr t) then t else title item
                 | None => title item
                 end tags_to_delete uppercased_tags articles)
                 (map Py.strip (tags item)) []) group Hin Hg) as [HS HA].
  split; [done|]. split; [done|].
  destruct (decide (Py.lower (category_of group) = category_of group)) as [|Hlow];
    [by left|right].
  by apply category_loop_adds.
Qed.

Lemma tags_check_sgid_tags_witness :
  let r := tags_check_run roads_item tags_to_delete uppercased_tags articles None in
  "Utah SGID Transportation" ∈ tl_groups r ∧
  "SGID" ∈ tl_new_tags r ∧ "AGRC" ∈ tl_new_tags r.
Proof.
  intros r.
  destruct (tags_check_sgid_tags roads_item tags_to_delete uppercased_tags articles None
              "Utah SGID Transportation") as (HS & HA & _).
  - by left.
  - reflexivity.
  - split; [by left|]. split; [exact HS|exact HA].
Defined.

(** ** [tags_check]: blanks around a tag *)

Lemma lstrip_head s :
  Py.lstrip s = "" ∨ ∃ c u, Py.lstrip s = String c u ∧ Py.is_space c = false.
Proof.
  induction s as [|c s IH]; simpl; [by left|].
  destruct (Py.is_space c) eqn:Hc; [done|]. right. by exists c, s.
Qed.

Lemma rstrip_idem s : Py.rstrip (Py.rstrip s) = Py.rstrip s.
Proof.
  induction s as [|c s IH]; [done|].
  cbn [Py.rstrip]. destruct (Py.rstrip s) as [|d r] eqn:Hr.
  - destruct (Py.is_space c) eqn:Hc; [done|]. cbn [Py.rstrip]. by rewrite Hc.
  - cbn [Py.rstrip]. cbn [Py.rstrip] in IH. by rewrite IH.
Qed.

Lemma rstrip_head c u :
  Py.is_space c = false → ∃ w, Py.rstrip (String c u) = String c w.
Proof.
  intros Hc. cbn [Py.rstrip]. destruct (Py.rstrip u); [|by eexists].
  rewrite Hc. by eexists.
Qed.

Lemma strip_idem s : Py.strip (Py.strip s) = Py.strip s.
Proof.
  unfold Py.strip. destruct (lstrip_head s) as [->|(c & u & -> & Hc)]; [done|].
  destruct (rstrip_head c u Hc) as [w Hw].
  rewrite Hw. cbn [Py.lstrip]. rewrite Hc, <-Hw. apply rstrip_idem.
Qed.

(** X9: blanks before and after a tag do not count.  [tags_check] builds the
    same new tags, reads the same groups and records the same failures for an
    item and for the item with its tags trimmed. *)
Theorem tags_check_trims item tags_to_delete uppercased_tags articles new_title :
  let r := tags_check_run item tags_to_delete uppercased_tags articles new_title in
  let r' := tags_check_run (set_tags item (map Py.strip item.(tags)))
              tags_to_delete uppercased_tags articles new_title in
  tl_new_tags r' = tl_new_tags r ∧
  tl_groups r' = tl_groups r ∧
  tl_failed_group_items r' = tl_failed_group_items r.
Proof.
  intros r r'. subst r r'. unfold tags_check_run, set_tags.
  cbn [title tags shared_with].
  destruct (read_groups (shared_with item)) as [groups raised].
  cbn [tl_new_tags tl_groups tl_failed_group_items].
  rewrite <-list_fmap_compose.
  rewrite (list_fmap_ext (Py.strip ∘ Py.strip) Py.strip (tags item)); [done|].
  intros _ t _. apply strip_idem.
Qed.

(** ** The category of a catalog name *)

Lemma split_sep_go_none sep s : ∀ cur,
  Py.contains sep s = false → Py.split_sep_go sep 0 cur s = [cur +:+ s].
Proof.
  induction s as [|c s IH]; intros cur.
  - intros _. cbn [Py.split_sep_go]. by rewrite sapp_nil_r.
  - cbn [Py.contains Py.split_sep_go]. intros [Hst Hs]%orb_false_iff.
    rewrite Hst, IH by done. by rewrite sapp_snoc.
Qed.

Lemma split_dot_some s : ∀ cur,
  Py.contains "." s = true →
  ∃ a b l, Py.split_sep_go "." 0 cur s = a :: b :: l.
Proof.
  induction s as [|c s IH]; intros cur; [done|].
  cbn [Py.contains Py.split_sep_go].
  destruct (Py.starts_with "." (String c s)) eqn:Hst.
  - intros _. change (String.length "." - 1) with 0.
    destruct s as [|d s]; [by eexists _, _, _|].
    cbn [Py.split_sep_go]. destruct (Py.starts_with "." (String d s)).
    + by eexists _, _, _.
    + destruct (Py.split_sep_go "." 0 ("" +:+ String d "") s) eqn:E; [|by eexists _, _, _].
      exfalso. revert E. generalize ("" +:+ String d ""). clear.
      induction s as [|c s IH]; intros cur; cbn [Py.split_sep_go]; [done|].
      destruct (Py.starts_with "." (String c s)); [done|]. apply IH.
  - cbn [orb]. intros Hs. by apply IH.
Qed.

Lemma table_category_error name :
  table_category_of name = inl IndexError ↔ Py.contains "." name = false.
Proof.
  unfold table_category_of, Py.split_sep. split.
  - destruct (Py.contains "." name) eqn:Hc; [|done].
    destruct (split_dot_some name "" Hc) as (a & b & l & ->). done.
  - intros Hc. by rewrite split_sep_go_none.
Qed.

Lemma table_category_cases name :
  table_category_of name = inl IndexError ∨ ∃ c, table_category_of name = inr c.
Proof.
  unfold table_category_of. destruct (_ !! 1); [right; by eexists|by left].
Qed.

(** X10: for an item of the catalog, [groups_check] raises IndexError
    exactly when the table name of its row holds no period, and so does
    [folder_check] for an item of the folder map; with a period in the name
    both return a result. *)
Theorem category_checks_index_error item metatable_dict itemid_and_folder row
    current_folder :
  metatable_dict !! item.(itemid) = Some row →
  itemid_and_folder !! item.(itemid) = Some current_folder →
  (groups_check item metatable_dict = inl IndexError ↔ Py.contains "." row.1 = false) ∧
  (folder_check item metatable_dict itemid_and_folder = inl IndexError
     ↔ Py.contains "." row.1 = false) ∧
  (Py.contains "." row.1 = true →
   ∃ g f, groups_check item metatable_dict = inr g ∧
          folder_check item metatable_dict itemid_and_folder = inr f).
Proof.
  intros Hrow Hfolder. unfold groups_check, folder_check.
  rewrite Hrow, Hfolder. rewrite <-table_category_error.
  destruct (table_category_cases row.1) as [He|[c Hc]].
  - rewrite He. repeat split; try done. intros Hdot.
    apply table_category_error in He. congruence.
  - rewrite Hc. cbn [py_eq]. split; [|split].
    + split; [|done]. repeat case_match; done.
    + split; [|done]. repeat case_match; done.
    + intros _. repeat case_match; by eexists _, _.
Qed.

Lemma category_checks_index_error_witness :
  let item := counties_unshared in
  let metatable_dict : gmap string (string * string) :=
    {[ item.(itemid) := ("Counties", "Utah Counties") ]} in
  metatable_dict !! item.(itemid) = Some ("Counties", "Utah Counties") ∧
  groups_check item metatable_dict = inl IndexError ∧
  folder_check item metatable_dict {[ item.(itemid) := None ]} = inl IndexError.
Proof.
  intros item metatable_dict.
  destruct (category_checks_index_error item metatable_dict {[ item.(itemid) := None ]}
              ("Counties", "Utah Counties") None) as (Hg & Hf & _);
    [vm_compute; reflexivity..|].
  split; [vm_compute; reflexivity|].
  split; [apply Hg|apply Hf]; reflexivity.
Defined.

(** ** From the catalog name to the group and back to the category *)

Lemma lower_char_not_G : ∀ c, Ascii.eqb "G" (Py.lower_char c) = false.
Proof. by_chars. Qed.

Lemma lower_char_not_S : ∀ c, Ascii.eqb "S" (Py.lower_char c) = false.
Proof. by_chars. Qed.

Lemma upper_char_S_cased : ∀ c,
  Ascii.eqb "S" (Py.upper_char c) = true → Py.is_cased c = true.
Proof.
  intros c; destruct c as [[] [] [] [] [] [] [] []]; vm_compute;
    intros H; first [discriminate H | reflexivity].
Qed.

(** In a title-cased string no capital follows a letter, so 'SG' is not
    part of it. *)
Lemma title_go_not_sgid b s : Py.starts_with "Utah SGID " (Py.title_go b s) = false.
Proof.
  destruct s as [|c0 [|c1 [|c2 [|c3 [|c4 [|c5 [|c6 s]]]]]]];
    cbn [Py.title_go Py.starts_with]; rewrite ?andb_false_r; try done.
  do 5 (apply andb_false_iff; right).
  destruct (Py.is_cased c4).
  - by rewrite lower_char_not_S.
  - destruct (Ascii.eqb "S" (Py.upper_char c5)) eqn:HS; [|done].
    apply upper_char_S_cased in HS. rewrite HS. by rewrite lower_char_not_G.
Qed.

Lemma title_go_no_sgid s : ∀ b, Py.contains "Utah SGID " (Py.title_go b s) = false.
Proof.
  induction s as [|c s IH]; intros b; [done|].
  change (Py.title_go b (String c s))
    with (String (if b then Py.lower_char c else Py.upper_char c)
            (Py.title_go (Py.is_cased c) s)).
  cbn [Py.contains]. rewrite IH, orb_false_r.
  apply (title_go_not_sgid b (String c s)).
Qed.

Lemma starts_with_app p s : Py.starts_with p (p +:+ s) = true.
Proof.
  induction p as [|a p IH]; [by destruct s|].
  rewrite sapp_cons. cbn [Py.starts_with]. by rewrite Ascii.eqb_refl, IH.
Qed.

Lemma contains_starts sub s : Py.starts_with sub s = true → Py.contains sub s = true.
Proof. intros H. destruct s; cbn [Py.contains]; by rewrite H. Qed.

Lemma split_sep_go_skip sep p s : ∀ cur,
  Py.split_sep_go sep (String.length p) cur (p +:+ s) = Py.split_sep_go sep 0 cur s.
Proof.
  induction p as [|a p IH]; intros cur; [done|].
  rewrite sapp_cons. cbn [String.length Py.split_sep_go]. apply IH.
Qed.

Lemma split_sep_prefix a p s :
  Py.contains (String a p) s = false →
  Py.split_sep (String a p) (String a p +:+ s) = [""; s].
Proof.
  intros Hs. unfold Py.split_sep. rewrite sapp_cons. cbn [Py.split_sep_go].
  rewrite <-sapp_cons, starts_with_app.
  cbn [String.length]. rewrite Nat.sub_1_r. cbn [Nat.pred].
  by rewrite split_sep_go_skip, split_sep_go_none.
Qed.

(** X11: the checkers agree on the category.  For a catalog name with
    category c - the folder [folder_check] asks for - the group
    [groups_check] asks for is 'Utah SGID ' followed by c, [tags_check] sees
    in that group title a 'Utah SGID' group whose category is c again, and one
    round of its category loop leaves c among the tags. *)
Theorem category_of_desired_group name c X :
  table_category_of name = inr c →
  Py.contains "Utah SGID" ("Utah SGID " +:+ c) = true ∧
  category_of ("Utah SGID " +:+ c) = c ∧
  c ∈ category_body X ("Utah SGID " +:+ c).
Proof.
  unfold table_category_of. destruct (_ !! 1) as [seg|]; [|done].
  intros [= <-].
  assert (Py.contains "Utah SGID" ("Utah SGID " +:+ Py.title seg) = true) as Hg.
  { change ("Utah SGID " +:+ Py.title seg)
      with ("Utah SGID" +:+ String " " (Py.title seg)).
    apply contains_starts, starts_with_app. }
  assert (category_of ("Utah SGID " +:+ Py.title seg) = Py.title seg) as Hc.
  { unfold category_of. rewrite split_sep_prefix; [done|].
    apply title_go_no_sgid. }
  split; [done|]. split; [done|].
  rewrite <-Hc at 1. by apply category_body_adds.
Qed.

Lemma category_of_desired_group_witness :
  table_category_of "SGID.BOUNDARIES.Counties" = inr "Boundaries" ∧
  category_of "Utah SGID Boundaries" = "Boundaries".
Proof.
  split; [reflexivity|].
  apply (category_of_desired_group "SGID.BOUNDARIES.Counties" "Boundaries" []).
  reflexivity.
Defined.

(** ** The tag list in the report: written with [join], read with [split] *)

Lemma starts_with_semicolon_blank c u :
  Py.starts_with "; " (String c u) =
  Ascii.eqb ";" c && match u with String d _ => Ascii.eqb " " d | "" => false end.
Proof. destruct u as [|d u]; cbn [Py.starts_with]; by rewrite ?andb_true_r. Qed.

Lemma split_tag_then_sep w : ∀ cur rest,
  Py.contains "; " w = false →
  Py.split_sep_go "; " 0 cur (w +:+ "; " +:+ rest) =
  (cur +:+ w) :: Py.split_sep_go "; " 0 "" rest.
Proof.
  induction w as [|c w IH]; intros cur rest Hw.
  - rewrite sapp_nil_l, sapp_nil_r. reflexivity.
  - cbn [Py.contains] in Hw. apply orb_false_iff in Hw as [Hst Hw].
    rewrite sapp_cons. cbn [Py.split_sep_go].
    assert (Py.starts_with "; " (String c (w +:+ "; " +:+ rest)) = false) as ->.
    { rewrite starts_with_semicolon_blank in *.
      destruct (Ascii.eqb ";" c); [|done]. cbn [andb] in *.
      destruct w as [|d w]; [done|]. by rewrite sapp_cons. }
    rewrite IH by done. by rewrite sapp_snoc.
Qed.



Example report_tags_empty : Py.split_sep "; " (Py.join "; " []) = [""].
Proof. reflexivity. Qed.

(** ** The constructor *)

Section init_facts.
Variable items_of : option string → list (string * Item).

Lemma init_item_recorded folders folder st typed_item :
  folder ∈ folders → typed_item ∈ items_of folder →
  recorded items_of folders st → recorded items_of folders (init_item folder st typed_item).
Proof.
  intros Hf Hin Hst. unfold init_item. case_bool_decide as Hty; [|done].
  destruct typed_item as [ty it]. simpl in Hty. subst ty.
  unfold recorded in *. cbn [fst snd]. apply Forall_app. split.
  - eapply Forall_impl; [exact Hst|]. intros item (f & item' & Hl & Hf' & Hit & Hid).
    destruct (decide (itemid it = itemid item)) as [Heq|Hne].
    + exists folder, it. by rewrite Heq, lookup_insert_eq.
    + exists f, item'. by rewrite lookup_insert_ne.
  - apply Forall_singleton. exists folder, it. by rewrite lookup_insert_eq.
Qed.

Lemma init_items_recorded folders folder items : ∀ st,
  folder ∈ folders → items ⊆ items_of folder →
  recorded items_of folders st → recorded items_of folders (fold_left (init_item folder) items st).
Proof.
  induction items as [|it items IH]; intros st Hf Hsub Hst; simpl; [done|].
  apply IH; [done| |].
  - intros x Hx. apply Hsub. by right.
  - apply init_item_recorded; [done| |done]. apply Hsub. by left.
Qed.

Lemma init_walk_recorded folders walked : ∀ st,
  walked ⊆ folders → recorded items_of folders st →
  recorded items_of folders (init_walk items_of walked st).
Proof.
  unfold init_walk.
  induction walked as [|f walked IH]; intros st Hsub Hst; simpl; [done|].
  apply IH.
  - intros x Hx. apply Hsub. by right.
  - apply init_items_recorded; [|done..]. apply Hsub. by left.
Qed.
End init_facts.


Lemma init_rows_other rows id : ∀ m,
  id ∉ row_ids rows → fold_left init_row rows m !! id = m !! id.
Proof.
  induction rows as [|[[n i] a] rows IH]; intros m Hid; simpl; [done|].
  simpl in Hid. apply not_elem_of_cons in Hid as [Hne Hid].
  rewrite IH by done. by rewrite lookup_insert_ne.
Qed.

Lemma init_rows_dom rows : ∀ m,
  dom (fold_left init_row rows m) = dom m ∪ list_to_set (row_ids rows).
Proof.
  induction rows as [|[[n i] a] rows IH]; intros m; simpl.
  - by rewrite (right_id_L ∅ (∪)).
  - rewrite IH, dom_insert_L.
    by rewrite (comm_L (∪) {[i]} (dom m)), <-(assoc_L (∪)).
Qed.



(** ** The report of the check phase *)

Section check_items_facts.
Variable check_tags : Item → list string → list string → list string → list string.
Variable get_category_and_name :
  Item → gmap string (string * string) → pyval * pyval * pyval.
Variable metatable_dict : gmap string (string * string).
Variable itemid_and_folder : gmap string (option string).

Lemma loc_set_index report itemid cols data :
  map fst (loc_set report itemid cols data) = map fst report.
Proof.
  unfold loc_set. rewrite <-list_fmap_compose. apply list_fmap_ext.
  intros _ r _. simpl. by case_decide.
Qed.

Lemma check_item_index report report' item :
  check_item check_tags get_category_and_name metatable_dict itemid_and_folder
    report item = inr report' →
  map fst report' = map fst report.
Proof.
  unfold check_item.
  destruct (get_category_and_name item metatable_dict) as [[ttl group] folder].
  destruct (negb (py_eq ttl (PStr "Not SGID"))).
  - destruct (itemid_and_folder !! itemid item); [|done].
    cbn [mbind exn_bind]. destruct (extract_missing item); [done|].
    intros [= <-]. by rewrite !loc_set_index.
  - cbn [mbind exn_bind]. destruct (extract_missing item); [done|].
    intros [= <-]. by rewrite !loc_set_index.
Qed.

Lemma check_loop_index items : ∀ report report',
  check_loop check_tags get_category_and_name metatable_dict itemid_and_folder
    report items = inr report' →
  map fst report' = map fst report.
Proof.
  induction items as [|item items IH]; intros report report'; simpl.
  - by intros [= <-].
  - destruct (check_item _ _ _ _ report item) as [e|report1] eqn:H1; [done|].
    cbn [mbind exn_bind]. intros H2%IH. rewrite H2. by eapply check_item_index.
Qed.

Lemma check_item_returns report item :
  is_Some (itemid_and_folder !! item.(itemid)) →
  (∃ missing, extract_missing item = inr missing) →
  ∃ report',
    check_item check_tags get_category_and_name metatable_dict itemid_and_folder
      report item = inr report'.
Proof.
  intros [current_folder Hf] [missing Hm]. unfold check_item.
  destruct (get_category_and_name item metatable_dict) as [[ttl group] folder].
  rewrite Hf. destruct (negb (py_eq ttl (PStr "Not SGID")));
    cbn [mbind exn_bind]; rewrite Hm; by eexists.
Qed.

Lemma check_loop_returns items : ∀ report,
  Forall (λ item, is_Some (itemid_and_folder !! item.(itemid)) ∧
                  ∃ missing, extract_missing item = inr missing) items →
  ∃ report',
    check_loop check_tags get_category_and_name metatable_dict itemid_and_folder
      report items = inr report'.
Proof.
  induction items as [|item items IH]; intros report Hall; simpl; [by eexists|].
  apply Forall_cons in Hall as [[Hf Hm] Hall].
  destruct (check_item_returns report item Hf Hm) as [report1 ->].
  cbn [mbind exn_bind]. by apply IH.
Qed.

(** X15: the report [check_items] returns has one row for each item of
    feature_service_items, in the same order, labelled with the item's
    identifier. *)
Theorem check_items_index feature_service_items report :
  check_items check_tags get_category_and_name metatable_dict itemid_and_folder
    feature_service_items = inr report →
  map fst report = map itemid feature_service_items ∧
  length report = length feature_service_items.
Proof.
  unfold check_items. intros H%check_loop_index.
  assert (map fst report = map itemid feature_service_items) as Hidx.
  { rewrite H. clear H. unfold new_frame.
    generalize (map itemid feature_service_items). intros ids.
    induction ids as [|i ids IH]; simpl; [done|]. by f_equal. }
  split; [done|].
  by rewrite <-(length_map fst report), Hidx, length_map.
Qed.
End check_items_facts.

Lemma check_items_index_witness :
  ∃ report,
    check_items example_check_tags example_category_and_name counties_metatable
      {[ counties_item.(itemid) := None ]} [counties_item; counties_item] = inr report ∧
    map fst report = [counties_item.(itemid); counties_item.(itemid)].
Proof.
  destruct (check_items example_check_tags example_category_and_name counties_metatable
              {[ counties_item.(itemid) := None ]} [counties_item; counties_item])
    as [e|report] eqn:Hrun; [vm_compute in Hrun; discriminate|].
  exists report. split; [reflexivity|].
  apply (check_items_index example_check_tags example_category_and_name
           counties_metatable {[ counties_item.(itemid) := None ]}
           [counties_item; counties_item] report Hrun).
Defined.

Lemma extract_missing_returns item :
  match item.(properties) with
  | Some props => props = ∅ ∨ is_Some (props !! "capabilities")
  | None => True
  end →
  ∃ missing, extract_missing item = inr missing.
Proof.
  unfold extract_missing. destruct (properties item) as [props|]; [|by eexists].
  intros [->|[caps Hcaps]].
  - rewrite bool_decide_eq_false_2 by auto. by eexists.
  - case_bool_decide; [|by eexists]. rewrite Hcaps. by eexists.
Qed.



Lemma init_items_list folder items : ∀ st,
  (fold_left (init_item folder) items st).1 =
  st.1 ++ map snd (List.filter (λ ti, bool_decide (ti.1 = "Feature Service")) items).
Proof.
  induction items as [|ti items IH]; intros st; simpl.
  - by rewrite app_nil_r.
  - rewrite IH. unfold init_item. case_bool_decide; simpl; [|done].
    by rewrite <-app_assoc.
Qed.

Lemma init_walk_list items_of folders : ∀ st,
  (init_walk items_of folders st).1 =
  st.1 ++ concat (map (λ folder,
                         map snd (List.filter
                                    (λ ti, bool_decide (ti.1 = "Feature Service"))
                                    (items_of folder))) folders).
Proof.
  unfold init_walk.
  induction folders as [|f folders IH]; intros st; simpl.
  - by rewrite app_nil_r.
  - by rewrite IH, init_items_list, <-app_assoc.
Qed.


(** ** The column 'fix_groups' *)

Lemma set_cells_other cols : ∀ row data col,
  col ∉ cols → set_cells row cols data !! col = row !! col.
Proof.
  induction cols as [|c cols IH]; intros row data col Hcol; [done|].
  apply not_elem_of_cons in Hcol as [Hne Hcol].
  destruct data as [|v data]; [done|]. simpl.
  rewrite IH by done. by rewrite lookup_insert_ne.
Qed.

Lemma loc_set_other report itemid cols data col :
  col ∉ cols →
  Forall (λ r, r.2 !! col = None) report →
  Forall (λ r, r.2 !! col = None) (loc_set report itemid cols data).
Proof.
  intros Hcol Hrep. unfold loc_set. apply Forall_fmap.
  eapply Forall_impl; [exact Hrep|]. intros r Hr. simpl.
  case_decide; [|done]. simpl. by rewrite set_cells_other.
Qed.

Section fix_groups_column.
Variable check_tags : Item → list string → list string → list string → list string.
Variable get_category_and_name :
  Item → gmap string (string * string) → pyval * pyval * pyval.
Variable metatable_dict : gmap string (string * string).
Variable itemid_and_folder : gmap string (option string).

Local Ltac not_fix_groups :=
  apply (proj1 (bool_decide_eq_false _)); reflexivity.

Lemma check_item_fix_groups report report' item :
  check_item check_tags get_category_and_name metatable_dict itemid_and_folder
    report item = inr report' →
  Forall (λ r, r.2 !! "fix_groups" = None) report →
  Forall (λ r, r.2 !! "fix_groups" = None) report'.
Proof.
  unfold check_item.
  destruct (get_category_and_name item metatable_dict) as [[ttl group] folder].
  destruct (negb (py_eq ttl (PStr "Not SGID"))).
  - destruct (itemid_and_folder !! itemid item); [|done].
    cbn [mbind exn_bind]. destruct (extract_missing item); [done|].
    intros [= <-] Hrep. repeat (apply loc_set_other; [not_fix_groups|]). done.
  - cbn [mbind exn_bind]. destruct (extract_missing item); [done|].
    intros [= <-] Hrep. repeat (apply loc_set_other; [not_fix_groups|]). done.
Qed.

Lemma check_loop_fix_groups items : ∀ report report',
  check_loop check_tags get_category_and_name metatable_dict itemid_and_folder
    report items = inr report' →
  Forall (λ r, r.2 !! "fix_groups" = None) report →
  Forall (λ r, r.2 !! "fix_groups" = None) report'.
Proof.
  induction items as [|item items IH]; intros report report'; simpl.
  - by intros [= <-].
  - destruct (check_item _ _ _ _ report item) as [e|report1] eqn:H1; [done|].
    cbn [mbind exn_bind]. intros H2 Hrep. eapply IH; [exact H2|].
    by eapply check_item_fix_groups.
Qed.

(** X18: [check_items] never assigns the column 'fix_groups': the flag of
    its groups check is written under 'fix_tags', where the tags check then
    writes its own.  In the report it returns, the cell 'fix_groups' of every
    row is unassigned, so no row asks the fix phase for a group. *)
Theorem check_items_leaves_fix_groups feature_service_items report :
  check_items check_tags get_category_and_name metatable_dict itemid_and_folder
    feature_service_items = inr report →
  Forall (λ r, r.2 !! "fix_groups" = None ∧ is_Y r.2 "fix_groups" = false) report.
Proof.
  unfold check_items. intros Hrun.
  eapply Forall_impl.
  - eapply check_loop_fix_groups; [exact Hrun|].
    unfold new_frame. apply Forall_fmap, Forall_forall. by intros i _.
  - intros r Hr. split; [done|]. unfold is_Y. by rewrite Hr.
Qed.
End fix_groups_column.

Lemma check_items_leaves_fix_groups_witness :
  ∃ report,
    check_items example_check_tags example_category_and_name counties_metatable
      {[ counties_unshared.(itemid) := None ]} [counties_unshared] = inr report ∧
    Forall (λ r, r.2 !! "fix_groups" = None ∧ is_Y r.2 "fix_groups" = false) report.
Proof.
  destruct (check_items example_check_tags example_category_and_name counties_metatable
              {[ counties_unshared.(itemid) := None ]} [counties_unshared])
    as [e|report] eqn:Hrun; [vm_compute in Hrun; discriminate|].
  exists report. split; [reflexivity|].
  apply (check_items_leaves_fix_groups example_check_tags example_category_and_name
           counties_metatable {[ counties_unshared.(itemid) := None ]}
           [counties_unshared] report Hrun).
Defined.
